(** * SpeedTestGo: the download-session engine of [internal/handlers/download.go]

    A shallow embedding of the handler type [DownloadHandler] and of its
    operations ([CheckRateLimit], [InitDownload], [DownloadData], [GetSpeed],
    [VerifyDownload], [generateRandomFile], [computeFileHash] and one tick of
    the loop started by [StartCleanup]), followed by the properties that the
    specification states about them and by further properties of the code.

    Conventions of the embedding.
    - Go's [int], [int64] and [time.Duration] are [Z]; where the source relies on
      the 64-bit range (the saturation of [Time.Sub]) it is written out.
    - [float64] is the kernel's binary64 type [float] of [PrimFloat].
    - [string] is a sequence of bytes (UTF-8), as in Go; [[]byte] is
      [list byte].
    - Go maps are [gmap]s; [*Session] values are stored in the map by value:
      every handler is modelled as running to completion on its own, so the
      pointer read under the mutex still denotes the map entry when it is
      written through.
    - The operating system (the files under [tmpdata], the clock, the random
      source, the UUID generator, the process log) is explicit: clock readings
      and fresh identifiers are arguments, files and log lines are part of the
      [World].
    - Of net/http, [http.Error] and the answer of [http.ServeContent] to a
      request without conditional or range headers are written out; its
      answer to a request with such headers is a parameter of the transfer. *)

From Stdlib Require Import ZArith Lia Strings.Byte Ascii String PrimInt63 PrimFloat.
From Stdlib Require Import Uint63 SpecFloat FloatOps FloatAxioms.
From Equations Require Import Equations.
From stdpp Require Import gmap strings list fin_maps.

Local Open Scope string_scope.
Local Open Scope Z_scope.

(** ** Numbers *)

Module Int64.
Definition min : Z := - 2 ^ 63.
Definition max : Z := 2 ^ 63 - 1.

(** Clamping to the range of [int64], as [Time.Sub] does on overflow. *)
Definition saturate (z : Z) : Z :=
  if decide (z < min) then min else if decide (max < z) then max else z.

(** Two's-complement wrap-around of an integer conversion. *)
Definition wrap (z : Z) : Z := (z + 2 ^ 63) `mod` 2 ^ 64 - 2 ^ 63.
End Int64.

Module Float64.
Local Open Scope float_scope.

Fixpoint uint63_of_pos (p : positive) : int :=
  match p with
  | xH => 1%uint63
  | xO q => PrimInt63.lsl (uint63_of_pos q) 1
  | xI q => PrimInt63.lor (PrimInt63.lsl (uint63_of_pos q) 1) 1
  end.

(** The conversion [float64(n)] of an [int64]: the nearest binary64 value
    (ties to even). Magnitudes below [2^63] fit the kernel's 63-bit integers;
    [-2^63] is a power of two and is given directly. *)
Definition of_int64 (n : Z) : float :=
  match n with
  | Z0 => 0
  | Zpos p => of_uint63 (uint63_of_pos p)
  | Zneg p =>
      if decide (Z.pos p = 2 ^ 63)%Z then -9223372036854775808
      else - of_uint63 (uint63_of_pos p)
  end.

(** What [encoding/json] accepts: it refuses NaN and the infinities with an
    [UnsupportedValueError]. *)
Definition is_finite (x : float) : bool :=
  negb (is_nan x) && negb (is_infinity x).

(** A binary64 value, in the representation [spec_float] in which the
    kernel's operations are specified, that is a number (not a NaN) and is
    zero or has the sign [s]. *)
Definition signed (s : bool) (x : spec_float) : Prop :=
  match x with
  | S754_zero _ => True
  | S754_infinity s' | S754_finite s' _ _ => s' = s
  | S754_nan => False
  end.
End Float64.

(** ** The [time] package *)

Module time.
(** A clock reading, in nanoseconds. *)
Abbreviation Time := Z (only parsing).
(** [time.Duration], an [int64] count of nanoseconds. *)
Abbreviation Duration := Z (only parsing).

Definition Nanosecond : Z := 1.
Definition Second : Z := 1000000000.
Definition Minute : Z := 60 * Second.
Definition Hour : Z := 60 * Minute.

(** [t.Sub(u)]: the difference, replaced by the largest or smallest
    [Duration] when it does not fit. *)
Definition Sub (t u : Time) : Duration := Int64.saturate (t - u).

(** [time.Since(t)] is [time.Now().Sub(t)]; the clock reading is [now]. *)
Definition Since (now t : Time) : Duration := Sub now t.

(** [t.UnixNano()]. *)
Definition UnixNano (t : Time) : Z := Int64.wrap t.

(** [d.Seconds()]:
    [sec := d / Second; nsec := d % Second;
     return float64(sec) + float64(nsec)/1e9]
    with Go's truncating division. *)
Definition Seconds (d : Duration) : float :=
  (Float64.of_int64 (Z.quot d Second)
   + Float64.of_int64 (Z.rem d Second) / 1e9)%float.
End time.

(** ** The [strings] package, as far as [getClientIP] uses it *)

Module strings.
(** The first element of [strings.Split(s, ",")]: the text before the first
    separator, or all of [s]. *)
Fixpoint before (sep : ascii) (s : string) : string :=
  match s with
  | EmptyString => EmptyString
  | String c s' =>
      if decide (c = sep) then EmptyString else String c (before sep s')
  end.

(** [strings.LastIndex(s, sep)] for a one-byte separator: [None] is Go's
    [-1]. *)
Fixpoint LastIndex (s : string) (sep : ascii) : option nat :=
  match s with
  | EmptyString => None
  | String c s' =>
      match LastIndex s' sep with
      | Some i => Some (S i)
      | None => if decide (c = sep) then Some 0%nat else None
      end
  end.

(** The slice [s[:n]]. *)
Fixpoint prefix (n : nat) (s : string) : string :=
  match n, s with
  | S m, String c s' => String c (prefix m s')
  | _, _ => EmptyString
  end.

Definition byte_is (c : ascii) (n : N) : bool := N.eqb (N_of_ascii c) n.

(** The six ASCII white-space bytes: tab, line feed, vertical tab, form
    feed, carriage return, space. *)
Definition asciiSpace (c : ascii) : bool :=
  let n := N_of_ascii c in
  (N.leb 9 n && N.leb n 13) || N.eqb n 32.

(** The UTF-8 encodings of the other code points of [unicode.IsSpace]:
    U+0085, U+00A0 (two bytes [C2 xx]); U+1680 ([E1 9A 80]);
    U+2000..U+200A, U+2028, U+2029, U+202F ([E2 80 xx]); U+205F
    ([E2 81 9F]); U+3000 ([E3 80 80]). *)
Definition space2 (a b : ascii) : bool :=
  byte_is a 194 && (byte_is b 133 || byte_is b 160).

Definition space3 (a b c : ascii) : bool :=
  let n := N_of_ascii c in
  (byte_is a 225 && byte_is b 154 && byte_is c 128)
  || (byte_is a 226 && byte_is b 128
      && ((N.leb 128 n && N.leb n 138) || N.eqb n 168 || N.eqb n 169
          || N.eqb n 175))
  || (byte_is a 226 && byte_is b 129 && byte_is c 159)
  || (byte_is a 227 && byte_is b 128 && byte_is c 128).

(** Dropping the leading white-space runes. *)
Fixpoint TrimLeftSpace (s : string) : string :=
  match s with
  | String a r1 =>
      if asciiSpace a then TrimLeftSpace r1
      else match r1 with
           | String b r2 =>
               if space2 a b then TrimLeftSpace r2
               else match r2 with
                    | String c r3 =>
                        if space3 a b c then TrimLeftSpace r3 else s
                    | EmptyString => s
                    end
           | EmptyString => s
           end
  | EmptyString => s
  end.

(** Dropping the trailing white-space runes of a string given in reverse
    (last byte first). *)
Fixpoint trimRevSpace (s : string) : string :=
  match s with
  | String a r1 =>
      if asciiSpace a then trimRevSpace r1
      else match r1 with
           | String b r2 =>
               if space2 b a then trimRevSpace r2
               else match r2 with
                    | String c r3 =>
                        if space3 c b a then trimRevSpace r3 else s
                    | EmptyString => s
                    end
           | EmptyString => s
           end
  | EmptyString => s
  end.

(** [strings.TrimSpace]: leading white space is removed first, trailing
    white space of the rest second. *)
Definition TrimSpace (s : string) : string :=
  String.rev (trimRevSpace (String.rev (TrimLeftSpace s))).
End strings.

(** ** [crypto/sha256] and [encoding/hex]

    The hash function of the Go standard library, written from FIPS 180-4
    (32-bit words as [Z], big-endian), and the lower-case hexadecimal encoder.
    The test vectors below are the standard ones. *)

Module sha256.
Definition w32 (z : Z) : Z := z `mod` 2 ^ 32.
Definition add32 (a b : Z) : Z := w32 (a + b).
Definition rotr (n x : Z) : Z :=
  Z.lor (Z.shiftr x n) (w32 (Z.shiftl x (32 - n))).
Definition not32 (x : Z) : Z := Z.lxor x (2 ^ 32 - 1).

Definition Ch (x y z : Z) : Z := Z.lxor (Z.land x y) (Z.land (not32 x) z).
Definition Maj (x y z : Z) : Z :=
  Z.lxor (Z.lxor (Z.land x y) (Z.land x z)) (Z.land y z).
Definition Sum0 (x : Z) : Z := Z.lxor (Z.lxor (rotr 2 x) (rotr 13 x)) (rotr 22 x).
Definition Sum1 (x : Z) : Z := Z.lxor (Z.lxor (rotr 6 x) (rotr 11 x)) (rotr 25 x).
Definition sig0 (x : Z) : Z := Z.lxor (Z.lxor (rotr 7 x) (rotr 18 x)) (Z.shiftr x 3).
Definition sig1 (x : Z) : Z := Z.lxor (Z.lxor (rotr 17 x) (rotr 19 x)) (Z.shiftr x 10).

(** The round constants (fractional parts of the cube roots of the first 64
    primes). *)
Definition roundK : list Z :=
  0x428a2f98 :: 0x71374491 :: 0xb5c0fbcf :: 0xe9b5dba5 ::
  0x3956c25b :: 0x59f111f1 :: 0x923f82a4 :: 0xab1c5ed5 ::
  0xd807aa98 :: 0x12835b01 :: 0x243185be :: 0x550c7dc3 ::
  0x72be5d74 :: 0x80deb1fe :: 0x9bdc06a7 :: 0xc19bf174 ::
  0xe49b69c1 :: 0xefbe4786 :: 0x0fc19dc6 :: 0x240ca1cc ::
  0x2de92c6f :: 0x4a7484aa :: 0x5cb0a9dc :: 0x76f988da ::
  0x983e5152 :: 0xa831c66d :: 0xb00327c8 :: 0xbf597fc7 ::
  0xc6e00bf3 :: 0xd5a79147 :: 0x06ca6351 :: 0x14292967 ::
  0x27b70a85 :: 0x2e1b2138 :: 0x4d2c6dfc :: 0x53380d13 ::
  0x650a7354 :: 0x766a0abb :: 0x81c2c92e :: 0x92722c85 ::
  0xa2bfe8a1 :: 0xa81a664b :: 0xc24b8b70 :: 0xc76c51a3 ::
  0xd192e819 :: 0xd6990624 :: 0xf40e3585 :: 0x106aa070 ::
  0x19a4c116 :: 0x1e376c08 :: 0x2748774c :: 0x34b0bcb5 ::
  0x391c0cb3 :: 0x4ed8aa4a :: 0x5b9cca4f :: 0x682e6ff3 ::
  0x748f82ee :: 0x78a5636f :: 0x84c87814 :: 0x8cc70208 ::
  0x90befffa :: 0xa4506ceb :: 0xbef9a3f7 :: 0xc67178f2 :: nil.

(** The chaining value: eight words. *)
Record digest := Digest { ha : Z; hb : Z; hc : Z; hd : Z; he : Z; hf : Z; hg : Z; hh : Z }.

Definition init : digest :=
  Digest 0x6a09e667 0xbb67ae85 0x3c6ef372 0xa54ff53a
         0x510e527f 0x9b05688c 0x1f83d9ab 0x5be0cd19.

(** The message schedule, kept newest word first: [extend n ws] adds the
    next [n] words to the reversed schedule [ws]. *)
Fixpoint extend (n : nat) (ws : list Z) : list Z :=
  match n with
  | O => ws
  | S m =>
      let at_ i := nth i ws 0 in
      extend m
        (add32 (add32 (add32 (sig1 (at_ 1%nat)) (at_ 6%nat)) (sig0 (at_ 14%nat)))
               (at_ 15%nat) :: ws)
  end.

Definition round (s : digest) (kw : Z * Z) : digest :=
  let t1 := add32 (add32 (add32 (add32 (hh s) (Sum1 (he s))) (Ch (he s) (hf s) (hg s)))
                         kw.1) kw.2 in
  let t2 := add32 (Sum0 (ha s)) (Maj (ha s) (hb s) (hc s)) in
  Digest (add32 t1 t2) (ha s) (hb s) (hc s) (add32 (hd s) t1) (he s) (hf s) (hg s).

(** One 512-bit block, given as its sixteen words. *)
Definition block (s : digest) (m : list Z) : digest :=
  let w := rev (extend 48 (rev m)) in
  let r := foldl round s (zip roundK w) in
  Digest (add32 (ha s) (ha r)) (add32 (hb s) (hb r)) (add32 (hc s) (hc r))
         (add32 (hd s) (hd r)) (add32 (he s) (he r)) (add32 (hf s) (hf r))
         (add32 (hg s) (hg r)) (add32 (hh s) (hh r)).

Definition Z_of_byte (b : byte) : Z := Z.of_N (Byte.to_N b).
Definition byte_of_Z (z : Z) : byte :=
  default "000"%byte (Byte.of_N (Z.to_N (z `mod` 256))).

(** Big-endian grouping of bytes into words (the padded message has a
    multiple of four bytes). *)
Fixpoint words (bs : list Z) : list Z :=
  match bs with
  | a :: b :: c :: d :: rest =>
      (((a * 256 + b) * 256 + c) * 256 + d) :: words rest
  | _ => nil
  end.

(** Absorbing words, sixteen at a time. *)
Fixpoint absorb (s : digest) (pending : list Z) (ws : list Z) : digest :=
  match ws with
  | nil => s
  | w :: rest =>
      let pending' := (pending ++ [w])%list in
      if decide (length pending' = 16%nat) then absorb (block s pending') nil rest
      else absorb s pending' rest
  end.

Definition be_bytes (n : nat) (z : Z) : list Z :=
  rev (map (λ i : nat, Z.shiftr z (8 * Z.of_nat i) `mod` 256) (seq 0 n)).

(** Padding: a one bit, zeros up to 56 modulo 64 bytes, and the length in
    bits as a 64-bit big-endian number. *)
Definition pad (len : Z) : list Z :=
  (128 :: replicate (Z.to_nat ((55 - len) `mod` 64)) 0
       ++ be_bytes 8 ((len * 8) `mod` 2 ^ 64))%list.

(** [sha256.Sum256]: the 32 bytes of the digest. *)
Definition Sum (data : list byte) : list byte :=
  let bs := map Z_of_byte data in
  let s := absorb init nil (words (bs ++ pad (Z.of_nat (length data)))%list) in
  map byte_of_Z
    (concat (map (be_bytes 4)
               [ha s; hb s; hc s; hd s; he s; hf s; hg s; hh s])).
End sha256.

Module hex.
Definition digit (n : Z) : ascii :=
  ascii_of_N (Z.to_N (if decide (n < 10) then 48 + n else 87 + n)).

(** [hex.EncodeToString]: two lower-case digits per byte. *)
Fixpoint EncodeToString (bs : list byte) : string :=
  match bs with
  | nil => EmptyString
  | b :: rest =>
      let n := sha256.Z_of_byte b in
      String (digit (n / 16)) (String (digit (n `mod` 16)) (EncodeToString rest))
  end.
End hex.

(** ** The file system under [tmpdata]

    Files are byte sequences named by their path. Every operation of package
    [os] can fail: on a missing file where the operation needs one, and
    wherever [fault] says so (permissions, a missing directory, a full or
    failing disk). [journal] lists the operations that changed the disk, in
    order. *)

Inductive Op := OpCreate | OpOpen | OpRead | OpWrite | OpRemove.

(** A Go [error] value (an [*fs.PathError]): [option error] is Go's [error],
    with [None] for [nil]. *)
Inductive error := PathError (op : Op) (path : string).

Inductive FsEvent :=
| EvCreate (path : string)
| EvWrite (path : string) (n : Z)
| EvRemove (path : string).

Record FS := mkFS {
  files : gmap string (list byte);
  fault : Op → string → bool;
  journal : list FsEvent
}.

Module os.
(** [os.Create]: the file is created, or truncated when it exists. *)
Definition Create (fs : FS) (path : string) : FS * option error :=
  if fault fs OpCreate path then (fs, Some (PathError OpCreate path))
  else (mkFS (<[path := []]> (files fs)) (fault fs)
             (journal fs ++ [EvCreate path])%list, None).

(** [f.Write(data)] on the file opened at [path]: the bytes are appended at
    the file's end (the file was just created and is written
    sequentially). *)
Definition Write (fs : FS) (path : string) (data : list byte) : FS * option error :=
  if fault fs OpWrite path then (fs, Some (PathError OpWrite path))
  else (mkFS (<[path := (default [] (files fs !! path) ++ data)%list]> (files fs))
             (fault fs)
             (journal fs ++ [EvWrite path (Z.of_nat (length data))])%list, None).

(** [os.Open]. *)
Definition Open (fs : FS) (path : string) : option error :=
  if fault fs OpOpen path then Some (PathError OpOpen path)
  else match files fs !! path with
       | Some _ => None
       | None => Some (PathError OpOpen path)
       end.

(** Reading an open file to its end. *)
Definition ReadAll (fs : FS) (path : string) : list byte * option error :=
  if fault fs OpRead path then ([], Some (PathError OpRead path))
  else (default [] (files fs !! path), None).

(** [os.Remove]. *)
Definition Remove (fs : FS) (path : string) : FS * option error :=
  if fault fs OpRemove path then (fs, Some (PathError OpRemove path))
  else match files fs !! path with
       | Some _ =>
           (mkFS (delete path (files fs)) (fault fs)
                 (journal fs ++ [EvRemove path])%list, None)
       | None => (fs, Some (PathError OpRemove path))
       end.
End os.

(** ** [math/rand]

    The generator is a stream of bytes selected by the seed; [Read] hands out
    the next bytes of the stream and never fails. *)

Record RNG := mkRNG { stream : Z → byte; offset : Z }.

Module rand.
Definition Seed (source : Z → Z → byte) (seed : Z) : RNG := mkRNG (source seed) 0.

Definition Read (g : RNG) (n : Z) : list byte * RNG :=
  (stream g <$> seqZ (offset g) n, mkRNG (stream g) (offset g + n)).
End rand.

(** ** The data model of [download.go] *)

(** Possible file sizes in bytes. *)
Definition allowedSizes : gmap Z Z :=
  list_to_map
    [ (5, 5 * 1024 * 1024); (10, 10 * 1024 * 1024); (20, 20 * 1024 * 1024);
      (50, 50 * 1024 * 1024); (100, 100 * 1024 * 1024);
      (200, 200 * 1024 * 1024); (500, 500 * 1024 * 1024);
      (1000, 1000 * 1024 * 1024) ].

(** Session stores information about a particular test session. *)
Record Session := mkSession {
  FilePath : string;
  ExpectedHash : string;
  HashAlgorithm : string;
  FileSize : Z;
  CreatedAt : Z;
  DownloadSpeedMbps : float
}.

(** The assignment [sess.DownloadSpeedMbps = v]. *)
Definition setSpeed (v : float) (s : Session) : Session :=
  mkSession (FilePath s) (ExpectedHash s) (HashAlgorithm s) (FileSize s)
            (CreatedAt s) v.

(** The handler's shared state; the mutex [mu] is the assumption that
    handlers do not interleave. *)
Record DownloadHandler := mkHandler {
  sessions : gmap string Session;
  lastAccessMap : gmap string Z
}.

Definition NewDownloadHandler : DownloadHandler := mkHandler ∅ ∅.

(** Lines written with [log.Printf]. *)
Inductive LogLine :=
| LogRateLimited (clientIP : string)
| LogAccessGranted (clientIP : string) (seen : gmap string Z)
| LogGenerateError (e : error)
| LogHashError (e : error)
| LogOpenError (e : error)
| LogSpeed (sessionID : string) (speedMbps : float)
| LogRemoveError (e : error)
| LogCleaning (sessionID : string)
| LogDeleteFailed (path : string) (e : error).

Record World := mkWorld {
  handler : DownloadHandler;
  disk : FS;
  logged : list LogLine
}.

Definition setSessions (m : gmap string Session) (w : World) : World :=
  mkWorld (mkHandler m (lastAccessMap (handler w))) (disk w) (logged w).

Definition setLastAccess (m : gmap string Z) (w : World) : World :=
  mkWorld (mkHandler (sessions (handler w)) m) (disk w) (logged w).

Definition setDisk (fs : FS) (w : World) : World :=
  mkWorld (handler w) fs (logged w).

Definition Printf (l : LogLine) (w : World) : World :=
  mkWorld (handler w) (disk w) (logged w ++ [l])%list.

(** ** Requests and responses *)

(** The headers by which a client makes a GET conditional or partial, as
    net/http reads them with [r.Header.Get] (empty when absent). No handler of
    [download.go] looks at them; [DownloadData] hands the request to
    [http.ServeContent], which does. *)
Record Preconditions := mkPreconditions {
  IfMatch : string;
  IfUnmodifiedSince : string;
  IfNoneMatch : string;
  IfModifiedSince : string;
  Range : string;
  IfRange : string
}.

(** None of the headers that [http.ServeContent] acts on is present
    ([If-Range] alone has no effect: it qualifies [Range]). *)
Definition unconditional (c : Preconditions) : Prop :=
  IfMatch c = "" ∧ IfUnmodifiedSince c = "" ∧ IfNoneMatch c = ""
  ∧ IfModifiedSince c = "" ∧ Range c = "".

#[global] Instance unconditional_dec c : Decision (unconditional c).
Proof. unfold unconditional. apply _. Defined.

(** An HTTP request as the handlers read it: the first [X-Forwarded-For]
    header (empty when absent), the peer address, the [session_id] query
    parameter (empty when absent), the JSON body after decoding into the
    handler's request type ([None] when the decoder reports an error), and
    the conditional and range headers. *)
Record Request (B : Type) := Build_Request {
  XForwardedFor : string;
  RemoteAddr : string;
  session_id : string;
  Body : option B;
  Conditions : Preconditions
}.
Arguments Build_Request {B} _ _ _ _ _.
Arguments XForwardedFor {B} _.
Arguments RemoteAddr {B} _.
Arguments session_id {B} _.
Arguments Body {B} _.
Arguments Conditions {B} _.

(** A request without conditional or range headers: the requests of the
    README's examples. *)
Definition mkRequest {B} (forwarded remote id : string) (body : option B)
  : Request B :=
  Build_Request forwarded remote id body (mkPreconditions "" "" "" "" "" "").

Record DownloadInitRequest := mkInitRequest { SizeMB : Z }.

Record DownloadInitResponse := mkInitResponse {
  init_SessionID : string;
  init_Size : Z;
  init_HashAlgorithm : string;
  init_ExpectedHash : string
}.

Record DownloadVerifyRequest := mkVerifyRequest {
  SessionID : string;
  ComputedHash : string
}.

Record DownloadVerifyResponse := mkVerifyResponse { Status : string }.

Record SpeedResponse := mkSpeedResponse {
  speed_SessionID : string;
  speed_DownloadSpeedMbps : float
}.

(** What a handler wrote to its [http.ResponseWriter]. *)
Inductive Payload :=
| Text (msg : string)
| InitJSON (resp : DownloadInitResponse)
| VerifyJSON (resp : DownloadVerifyResponse)
| SpeedJSON (resp : SpeedResponse)
| Content (data : list byte)
| Nothing.

Record Response := mkResponse {
  StatusCode : Z;
  Header : list (string * string);
  Written : Payload
}.

Module http.
Definition StatusOK : Z := 200.
Definition StatusNotModified : Z := 304.
Definition StatusBadRequest : Z := 400.
Definition StatusNotFound : Z := 404.
Definition StatusTooManyRequests : Z := 429.
Definition StatusInternalServerError : Z := 500.

(** [http.Error(w, msg, code)]. *)
Definition Error (msg : string) (code : Z) : Response :=
  mkResponse code
    [("Content-Type", "text/plain; charset=utf-8");
     ("X-Content-Type-Options", "nosniff")]
    (Text msg).

(** A JSON document written with status 200. *)
Definition JSON (p : Payload) : Response :=
  mkResponse StatusOK [("Content-Type", "application/json")] p.
End http.

(** ** The operations of [download.go] *)

Module filepath.
(** [filepath.Join(dir, name)] for path elements that need no cleaning
    (the names joined here are a UUID followed by [.bin]). *)
Definition Join (dir name : string) : string := dir ++ "/" ++ name.
End filepath.

Definition getClientIP {B} (r : Request B) : string :=
  (* Check X-Forwarded-For header *)
  let forwarded := XForwardedFor r in
  if decide (forwarded ≠ "") then
    (* Return the first IP in the list *)
    strings.TrimSpace (strings.before ","%char forwarded)
  else
    (* Fallback to RemoteAddr *)
    let remoteAddr := RemoteAddr r in
    match strings.LastIndex remoteAddr ":"%char with
    | Some colonIndex => strings.prefix colonIndex remoteAddr (* Strip port if present *)
    | None => remoteAddr (* Return as-is if no port *)
    end.

(** [CheckRateLimit] reads the clock twice: [nowSince] inside [time.Since]
    (only when the client is known) and [nowStamp] for the new entry. *)
Definition CheckRateLimit {B} (nowSince nowStamp : Z) (r : Request B) (w : World)
  : World * bool :=
  let clientIP := getClientIP r in
  let seen := lastAccessMap (handler w) in
  let limited :=
    match seen !! clientIP with
    | Some lastAccess =>
        bool_decide (time.Since nowSince lastAccess < 10 * time.Second)
    | None => false
    end in
  if limited then
    (Printf (LogRateLimited clientIP) w, false) (* Deny access *)
  else
    (* Update access time *)
    let seen' := <[clientIP := nowStamp]> seen in
    (Printf (LogAccessGranted clientIP seen') (setLastAccess seen' w), true).

(** What [InitDownload] takes from its environment, in the order of use. *)
Record InitEnv := mkInitEnv {
  nowSince : Z;                (* the clock inside time.Since *)
  nowStamp : Z;                (* the clock stored in lastAccessMap *)
  newUUID : string;            (* uuid.New().String() *)
  nowSeed : Z;                 (* the clock seeding math/rand *)
  randSource : Z → Z → byte;   (* the byte stream of math/rand, by seed *)
  nowCreated : Z               (* the clock stored in CreatedAt *)
}.

(** The buffer of [generateRandomFile]: 1MB. *)
Definition bufLen : Z := 1024 * 1024.

(** The length of the next write: [len(buf)], or what remains when that is
    less. *)
Definition toWrite (size totalWritten : Z) : Z :=
  let remain := size - totalWritten in
  if decide (bufLen > remain) then remain else bufLen.

(** The loop [for totalWritten < size] of [generateRandomFile]. [f.Write]
    returns [n = toWrite] whenever it returns no error. *)
Equations? writeLoop (path : string) (size : Z) (g : RNG) (fs : FS)
    (totalWritten : Z) : FS * option error
    by wf (Z.to_nat (size - totalWritten)) lt :=
  writeLoop path size g fs totalWritten with decide (totalWritten < size) := {
    | right _ := (fs, None);
    | left _ with os.Write fs path (rand.Read g (toWrite size totalWritten)).1 := {
        | (fs', Some err) := (fs', Some err);
        | (fs', None) :=
            writeLoop path size (rand.Read g (toWrite size totalWritten)).2 fs'
                      (totalWritten + toWrite size totalWritten) } }.
Proof.
  unfold toWrite, bufLen. case_decide; lia.
Qed.

(** generateRandomFile creates a file of the given size filled with random
    bytes. *)
Definition generateRandomFile (e : InitEnv) (path : string) (size : Z) (fs : FS)
  : FS * option error :=
  match os.Create fs path with
  | (fs1, Some err) => (fs1, Some err)
  | (fs1, None) =>
      let g := rand.Seed (randSource e) (time.UnixNano (nowSeed e)) in
      writeLoop path size g fs1 0
  end.

(** computeFileHash computes the SHA-256 hash of a file. *)
Definition computeFileHash (fs : FS) (path : string) : string * option error :=
  match os.Open fs path with
  | Some err => ("", Some err)
  | None =>
      match os.ReadAll fs path with
      | (_, Some err) => ("", Some err)
      | (data, None) => (hex.EncodeToString (sha256.Sum data), None)
      end
  end.

(** InitDownload creates a temp file of requested size, computes its hash, and
    returns session info. (Writing the JSON answer to the client is taken to
    succeed; the source answers 500 when the encoder reports an error, after
    the session has been registered.) *)
Definition InitDownload (e : InitEnv) (r : Request DownloadInitRequest) (w : World)
  : World * Response :=
  let (w1, admitted) := CheckRateLimit (nowSince e) (nowStamp e) r w in
  if negb admitted then
    (w1, http.Error "Rate limit exceeded. Try again later." http.StatusTooManyRequests)
  else
    match Body r with
    | None => (w1, http.Error "Bad request" http.StatusBadRequest)
    | Some req =>
        match allowedSizes !! SizeMB req with
        | None =>
            (w1, http.Error "Invalid size requested. Allowed values: 5,10,20,50,100"
                            http.StatusBadRequest)
        | Some size =>
            let sessionID := newUUID e in
            (* Generate a temporary file *)
            let filePath := filepath.Join "tmpdata" (sessionID ++ ".bin") in
            match generateRandomFile e filePath size (disk w1) with
            | (fs2, Some err) =>
                (Printf (LogGenerateError err) (setDisk fs2 w1),
                 http.Error "Internal Server Error" http.StatusInternalServerError)
            | (fs2, None) =>
                (* Compute SHA-256 hash of the file *)
                match computeFileHash fs2 filePath with
                | (_, Some err) =>
                    (Printf (LogHashError err) (setDisk fs2 w1),
                     http.Error "Internal Server Error" http.StatusInternalServerError)
                | (expectedHash, None) =>
                    let sess :=
                      mkSession filePath expectedHash "sha256" size (nowCreated e) 0 in
                    (setSessions (<[sessionID := sess]> (sessions (handler w1)))
                                 (setDisk fs2 w1),
                     http.JSON
                       (InitJSON (mkInitResponse sessionID size "sha256" expectedHash)))
                end
            end
        end
    end.

(** What [DownloadData] takes from its environment: its three clock readings
    (before serving, the modification time it hands to [http.ServeContent],
    and after serving) and the answer of net/http to a conditional or range
    request, see [ServeContent]. *)
Record TransferEnv := mkTransferEnv {
  startTime : Z;
  modTime : Z;
  endTime : Z;
  negotiate : Preconditions → Z → FS → string → Response
}.

(** Convert bytes to Mbps:
    [(float64(sess.FileSize) * 8) / (duration * 1024 * 1024)]. *)
Definition speedMbps (fileSize : Z) (duration : float) : float :=
  ((Float64.of_int64 fileSize * 8) / (duration * 1024 * 1024))%float.

(** [http.ServeContent(w, r, name, modtime, f)] on the file opened at [path].
    It returns nothing to the handler. net/http checks the preconditions of
    the request ([If-Match], [If-Unmodified-Since], [If-None-Match],
    [If-Modified-Since]) and then its [Range]:
    - a request that carries none of these headers is answered 200 with the
      bytes of the file; the status line is out before the file is read, so
      a read error only cuts the body short;
    - for a request that carries one of them the answer is 206 with the bytes
      asked for, 304, 412 or 416 (or 200, where the header is ignored). Which
      one, and with which body, is decided by net/http's parsers of byte
      ranges, entity tags and HTTP dates from the headers, the modification
      time and the file; that code is not part of this repository, and its
      answer is the parameter [negotiate].
    The [name] only selects the [Content-Type]; of the headers, the one that
    the handler sets is recorded. The router of [main.go] hands [DownloadData]
    GET requests only. *)
Definition ServeContent {B} (negotiate : Preconditions → Z → FS → string → Response)
    (r : Request B) (modtime : Z) (fs : FS) (path : string) : Response :=
  if decide (unconditional (Conditions r)) then
    mkResponse http.StatusOK
      [("Cache-Control", "no-cache, no-store, must-revalidate")]
      (Content (os.ReadAll fs path).1)
  else negotiate (Conditions r) modtime fs path.

Definition DownloadData {B} (e : TransferEnv) (r : Request B) (w : World)
  : World * Response :=
  let sessionID := session_id r in
  if decide (sessionID = "") then
    (w, http.Error "session_id is required" http.StatusBadRequest)
  else
    match sessions (handler w) !! sessionID with
    | None => (w, http.Error "Invalid session_id" http.StatusNotFound)
    | Some sess =>
        match os.Open (disk w) (FilePath sess) with
        | Some err =>
            (Printf (LogOpenError err) w,
             http.Error "Internal Server Error" http.StatusInternalServerError)
        | None =>
            (* Serve the file content, between the two clock readings *)
            let resp :=
              ServeContent (negotiate e) r (modTime e) (disk w) (FilePath sess) in
            (* Calculate download speed *)
            let duration := time.Seconds (time.Sub (endTime e) (startTime e)) in
            let speed := speedMbps (FileSize sess) duration in
            (* Store speed in session *)
            let w1 :=
              setSessions (<[sessionID := setSpeed speed sess]> (sessions (handler w))) w in
            (Printf (LogSpeed sessionID speed) w1, resp)
        end
    end.

(** [json.NewEncoder(w).Encode(resp)] of a [SpeedResponse]: a speed that is
    not finite is refused by the encoder and nothing is written (the handler
    ignores the error). *)
Definition encodeSpeed (resp : SpeedResponse) : Payload :=
  if Float64.is_finite (speed_DownloadSpeedMbps resp) then SpeedJSON resp else Nothing.

Definition GetSpeed {B} (r : Request B) (w : World) : World * Response :=
  let sessionID := session_id r in
  if decide (sessionID = "") then
    (w, http.Error "session_id is required" http.StatusBadRequest)
  else
    match sessions (handler w) !! sessionID with
    | None => (w, http.Error "Invalid session_id" http.StatusNotFound)
    | Some sess =>
        (* Use stored speed *)
        (w, http.JSON (encodeSpeed (mkSpeedResponse sessionID (DownloadSpeedMbps sess))))
    end.

(** VerifyDownload checks if the computed hash matches the expected hash. If it
    does, remove the file. *)
Definition VerifyDownload (r : Request DownloadVerifyRequest) (w : World)
  : World * Response :=
  match Body r with
  | None => (w, http.Error "Bad request" http.StatusBadRequest)
  | Some req =>
      match sessions (handler w) !! SessionID req with
      | None => (w, http.Error "Invalid session_id" http.StatusNotFound)
      | Some sess =>
          let expectedHash := ExpectedHash sess in
          let filePath := FilePath sess in
          if decide (ComputedHash req = expectedHash) then
            (* Attempt to delete the file *)
            match os.Remove (disk w) filePath with
            | (_, Some err) =>
                (Printf (LogRemoveError err) w,
                 http.Error "File removal failed" http.StatusInternalServerError)
            | (fs', None) =>
                (* Remove session after successful deletion *)
                (setSessions (delete (SessionID req) (sessions (handler w)))
                             (setDisk fs' w),
                 http.JSON (VerifyJSON (mkVerifyResponse "success")))
            end
          else (w, http.Error "Hash mismatch" http.StatusBadRequest)
      end
  end.

(** The body of the loop [for sessionID, sess := range h.sessions] in
    [StartCleanup], for one entry. *)
Definition reapOne (now : Z) (w : World) (entry : string * Session) : World :=
  let sessionID := entry.1 in
  let sess := entry.2 in
  if decide (time.Sub now (CreatedAt sess) > time.Hour) then
    let w1 := Printf (LogCleaning sessionID) w in
    (* Delete file *)
    let w2 :=
      match os.Remove (disk w1) (FilePath sess) with
      | (_, Some err) => Printf (LogDeleteFailed (FilePath sess) err) w1
      | (fs', None) => setDisk fs' w1
      end in
    (* Remove session *)
    setSessions (delete sessionID (sessions (handler w2))) w2
  else w.

(** The entries of a sweep, visited in the order [order]. *)
Definition reap (now : Z) (order : list (string * Session)) (w : World) : World :=
  foldl (reapOne now) w order.

(** One tick of the cleanup ticker: every session present at the tick is
    visited once (deleting the visited entry of a Go map during [range] is
    allowed and hides no other entry). *)
Definition cleanupTick (now : Z) (w : World) : World :=
  reap now (map_to_list (sessions (handler w))) w.

(** ** Concrete worlds for the examples

    A small hand-built world for the examples of single operations: one
    session [u1] created at clock reading 50 whose 5 MiB artifact is
    abbreviated to three bytes, on a disk without faults; the same world on a
    disk that refuses to remove files; and the same world with the artifact
    missing from the disk. The examples that run whole scenarios start from
    the initial world of the server instead. *)

Module Sample.
Definition noFault : Op → string → bool := λ _ _, false.
Definition noRemove : Op → string → bool :=
  λ op _, match op with OpRemove => true | _ => false end.
Definition noRead : Op → string → bool :=
  λ op _, match op with OpRead => true | _ => false end.

Definition data : list byte := ["a"%byte; "b"%byte; "c"%byte].
Definition digest : string :=
  "ba7816bf8f01cfea414140de5dae2223b00361a396177a9cb410ff61f20015ad".
Definition path : string := "tmpdata/u1.bin".

Definition sess : Session :=
  mkSession path digest "sha256" (5 * 1024 * 1024) 50 0.
Definition hdl : DownloadHandler := mkHandler {["u1" := sess]} ∅.

Definition world : World := mkWorld hdl (mkFS {[path := data]} noFault []) [].
Definition stuck : World := mkWorld hdl (mkFS {[path := data]} noRemove []) [].
Definition orphan : World := mkWorld hdl (mkFS ∅ noFault []) [].

(** The initial world of the server (no session, no file) on a disk without
    faults, and on a disk that refuses to remove files. *)
Definition empty : World := mkWorld NewDownloadHandler (mkFS ∅ noFault []) [].
Definition emptyStuck : World := mkWorld NewDownloadHandler (mkFS ∅ noRemove []) [].

(** The disk of [w] from the moment it stops delivering file contents. *)
Definition failReads (w : World) : World :=
  setDisk (mkFS (files (disk w)) noRead (journal (disk w))) w.

Definition query (id : string) : Request unit := mkRequest "" "10.0.0.7:4711" id None.
Definition verify (id hash : string) : Request DownloadVerifyRequest :=
  mkRequest "" "10.0.0.7:4711" "" (Some (mkVerifyRequest id hash)).
Definition init (sizeMB : Z) : Request DownloadInitRequest :=
  mkRequest "" "10.0.0.7:4711" "" (Some (mkInitRequest sizeMB)).

(** A client that revalidates its copy: a transfer request with the header
    [If-None-Match: *], which net/http answers 304 without a body. *)
Definition revalidate (id : string) : Request unit :=
  Build_Request "" "10.0.0.7:4711" id None (mkPreconditions "" "" "*" "" "" "").
Definition notModified : Preconditions → Z → FS → string → Response :=
  λ _ _ _ _,
    mkResponse http.StatusNotModified
      [("Cache-Control", "no-cache, no-store, must-revalidate")] Nothing.

(** A transfer that takes one second, and one whose clock readings
    coincide. *)
Definition oneSecond : TransferEnv :=
  mkTransferEnv 9000000000 9000000000 10000000000 notModified.
Definition instant : TransferEnv :=
  mkTransferEnv 9000000000 9000000000 9000000000 notModified.
End Sample.

(** Environments for the initiation examples. *)

Module SampleInit.
(** A deterministic stand-in for the random source. *)
Definition source : Z → Z → byte := λ seed i, sha256.byte_of_Z (seed + i).
(** An initiation at 7 s on the clock, and one a second later. *)
Definition env : InitEnv :=
  mkInitEnv 7000000000 7000000050 "2f1c6a0e-5d3b-4c8a-9e7f-0a1b2c3d4e5f"
            7000001000 source 7020000000.
Definition later : InitEnv :=
  mkInitEnv 8000000000 8000000050 "7b9d2e4c-1a3f-4e6b-8c0d-9f8e7d6c5b4a"
            8000001000 source 8020000000.
End SampleInit.

(** ** The server as a whole

    What [main.go] sets up: a handler created by [NewDownloadHandler] (empty
    maps, and the cleanup goroutine started) behind a router that hands each
    request to one of the four handlers. A [Call] is one request as the router
    dispatches it, or one tick of the cleanup ticker; [run] is the server
    working through the calls one after the other, from the world [boot]
    creates on whatever disk the process finds. Between the calls nothing
    else touches the disk, and the disk fails at the same operations
    throughout ([fault] is not changed by any call). *)

Inductive Call :=
| CallInit (e : InitEnv) (r : Request DownloadInitRequest)   (* POST /download/init *)
| CallData (e : TransferEnv) (r : Request unit)              (* GET /download/data *)
| CallVerify (r : Request DownloadVerifyRequest)             (* POST /download/verify *)
| CallSpeed (r : Request unit)                               (* GET /download/speed *)
| CallTick (now : Z).                                        (* <-ticker.C *)

Definition serve (w : World) (c : Call) : World :=
  match c with
  | CallInit e r => (InitDownload e r w).1
  | CallData e r => (DownloadData e r w).1
  | CallVerify r => (VerifyDownload r w).1
  | CallSpeed r => (GetSpeed r w).1
  | CallTick now => cleanupTick now w
  end.

Definition run (calls : list Call) (w : World) : World := foldl serve w calls.

Definition boot (fs : FS) : World := mkWorld NewDownloadHandler fs [].

(** The sessions of [w] are backed: each entry is the one [InitDownload]
    registered under its key (artifact path derived from the key, algorithm
    [sha256], an allowed size), and its artifact is on the disk, readable,
    of that size and with that digest. *)
Definition backed (w : World) : Prop :=
  ∀ id sess,
    sessions (handler w) !! id = Some sess →
    FilePath sess = filepath.Join "tmpdata" (id ++ ".bin")
    ∧ HashAlgorithm sess = "sha256"
    ∧ (∃ sel, allowedSizes !! sel = Some (FileSize sess))
    ∧ (∀ op, op ∈ [OpWrite; OpOpen; OpRead] →
             fault (disk w) op (FilePath sess) = false)
    ∧ ∃ data,
        files (disk w) !! FilePath sess = Some data
        ∧ Z.of_nat (length data) = FileSize sess
        ∧ ExpectedHash sess = hex.EncodeToString (sha256.Sum data).

(** The characters of a string. *)
Abbreviation chars := list_ascii_of_string (only parsing).

(** A session is reaped when it is older than one hour at the tick. *)
Local Abbreviation expired now sess :=
  (time.Sub now (CreatedAt sess) > time.Hour) (only parsing).

(** ** Proof automation *)


(** Case analysis on the outcome of an initiation; [unfolded] is the equation
    of [InitDownload] with the verdict of the rate limiter made explicit. *)
Ltac init_cases unfolded e r w :=
  rewrite (unfolded e r w);
  destruct (CheckRateLimit (nowSince e) (nowStamp e) r w).2 eqn:?; simpl;
  [ destruct (Body r) as [?req|] eqn:?; simpl;
    [ destruct (allowedSizes !! SizeMB _) as [?size|] eqn:?; simpl;
      [ destruct (generateRandomFile _ _ _ _) as [?fs2 [?err|]] eqn:?; simpl;
        [ | destruct (computeFileHash _ _) as [?hash [?err|]] eqn:?; simpl ]
      | ]
    | ]
  | ].

(** * Properties *)

(** ** Test vectors of SHA-256 *)

Example sha256_empty :
  hex.EncodeToString (sha256.Sum []) =
  "e3b0c44298fc1c149afbf4c8996fb92427ae41e4649b934ca495991b7852b855".
Proof. vm_compute. reflexivity. Qed.

Example sha256_abc :
  hex.EncodeToString (sha256.Sum ["a"%byte; "b"%byte; "c"%byte]) =
  "ba7816bf8f01cfea414140de5dae2223b00361a396177a9cb410ff61f20015ad".
Proof. vm_compute. reflexivity. Qed.

(** A message longer than one block (70 bytes of [x00]). *)
Example sha256_two_blocks :
  hex.EncodeToString (sha256.Sum (replicate 70 "000"%byte)) =
  "82fcfd5215175da9e65ca7c4fb927a1fb0e61f09d54987c368e8e16ebd9c2969".
Proof. vm_compute. reflexivity. Qed.


(** ** The model runs *)

Example getClientIP_samples :
  getClientIP (mkRequest (B := unit) " 203.0.113.9 , 10.0.0.1" "10.0.0.7:4711" "" None)
  = "203.0.113.9"
  ∧ getClientIP (Sample.query "") = "10.0.0.7"
  ∧ getClientIP (mkRequest (B := unit) "" "[::1]:8080" "" None) = "[::1]"
  ∧ getClientIP (mkRequest (B := unit) "" "10.0.0.7" "" None) = "10.0.0.7".
Proof. repeat split. Qed.

(** [generateRandomFile] and [computeFileHash] on a five-byte file (the
    stand-in source counts upwards from the seed, here 97, the letter a). *)
Example generateRandomFile_small :
  let e := mkInitEnv 0 0 "x" 97 SampleInit.source 0 in
  let made := generateRandomFile e "tmpdata/x.bin" 5 (disk Sample.empty) in
  made.2 = None
  ∧ files made.1 !! "tmpdata/x.bin"
    = Some ["a"%byte; "b"%byte; "c"%byte; "d"%byte; "e"%byte]
  ∧ journal made.1 = [EvCreate "tmpdata/x.bin"; EvWrite "tmpdata/x.bin" 5]
  ∧ computeFileHash made.1 "tmpdata/x.bin"
    = ("36bbe50ed96841d10443bcb670d6554f0a34b761be67ec9c4a8ad2c0c44ca42c", None).
Proof. vm_compute. repeat split. Qed.

(** ** Small facts used throughout *)

(** [os.Remove] fails exactly on a fault or a missing file, and then leaves
    the disk as it was. *)
Lemma Remove_error fs path err :
  (os.Remove fs path).2 = Some err →
  (os.Remove fs path).1 = fs ∧ err = PathError OpRemove path
  ∧ (fault fs OpRemove path = true ∨ files fs !! path = None).
Proof.
  unfold os.Remove. destruct (fault fs OpRemove path) eqn:Hf; simpl.
  - intros [= <-]. auto.
  - destruct (files fs !! path) eqn:Hp; simpl; [done|]. intros [= <-]. auto.
Qed.

Lemma Remove_ok fs path :
  (os.Remove fs path).2 = None →
  fault fs OpRemove path = false ∧ is_Some (files fs !! path)
  ∧ (os.Remove fs path).1 =
      mkFS (delete path (files fs)) (fault fs) (journal fs ++ [EvRemove path])%list.
Proof.
  unfold os.Remove. destruct (fault fs OpRemove path) eqn:Hf; simpl; [done|].
  destruct (files fs !! path) eqn:Hp; simpl; [eauto|done].
Qed.

(** ** The rate limiter *)

(** The verdict of the rate limiter, as a function of the client's entry. *)
Lemma CheckRateLimit_verdict {B} (nowSince nowStamp : Z) (r : Request B) (w : World) :
  (CheckRateLimit nowSince nowStamp r w).2
  = match lastAccessMap (handler w) !! getClientIP r with
    | Some lastAccess => bool_decide (10 * time.Second ≤ time.Since nowSince lastAccess)
    | None => true
    end.
Proof.
  unfold CheckRateLimit. destruct (lastAccessMap (handler w) !! getClientIP r) as [t|];
    [|done].
  destruct (bool_decide_reflect (time.Since nowSince t < 10 * time.Second)); simpl;
    symmetry; [apply bool_decide_eq_false_2 | apply bool_decide_eq_true_2]; lia.
Qed.

(** The world it returns. *)
Lemma CheckRateLimit_result {B} (nowSince nowStamp : Z) (r : Request B) (w : World) :
  let ip := getClientIP r in
  let seen' := <[ip := nowStamp]> (lastAccessMap (handler w)) in
  CheckRateLimit nowSince nowStamp r w =
  if (CheckRateLimit nowSince nowStamp r w).2
  then (Printf (LogAccessGranted ip seen') (setLastAccess seen' w), true)
  else (Printf (LogRateLimited ip) w, false).
Proof.
  unfold CheckRateLimit.
  by destruct (match lastAccessMap (handler w) !! getClientIP r with
               | Some lastAccess =>
                   bool_decide (time.Since nowSince lastAccess < 10 * time.Second)
               | None => false
               end).
Qed.

(** C6. [CheckRateLimit] admits a client exactly when [lastAccessMap] has no
    entry for its identity or the entry is at least the 10-second cooldown
    old (the source denies on [time.Since(lastAccess) < 10*time.Second]). On
    admission the entry becomes the current clock reading; on denial the map
    is left as it was, so that a later call made once the cooldown has elapsed
    is admitted. After an admission, a further call is admitted exactly when
    the cooldown counted from the stored reading has elapsed. Sessions and
    files are never touched. *)
Theorem CheckRateLimit_cooldown {B} (nowSince nowStamp : Z) (r : Request B) (w : World) :
  let ip := getClientIP r in
  let prior := lastAccessMap (handler w) !! ip in
  let out := CheckRateLimit nowSince nowStamp r w in
  (out.2 = true ↔
     prior = None ∨ ∃ t, prior = Some t ∧ 10 * time.Second ≤ time.Since nowSince t)
  ∧ (out.2 = true →
       lastAccessMap (handler out.1) = <[ip := nowStamp]> (lastAccessMap (handler w))
       ∧ ∀ later stamp,
           (CheckRateLimit later stamp r out.1).2
           = bool_decide (10 * time.Second ≤ time.Since later nowStamp))
  ∧ (out.2 = false →
       lastAccessMap (handler out.1) = lastAccessMap (handler w)
       ∧ ∀ t later stamp,
           prior = Some t → 10 * time.Second ≤ time.Since later t →
           (CheckRateLimit later stamp r out.1).2 = true)
  ∧ sessions (handler out.1) = sessions (handler w)
  ∧ disk out.1 = disk w.
Proof.
  intros ip prior out.
  pose proof (CheckRateLimit_verdict nowSince nowStamp r w) as Hverdict.
  pose proof (CheckRateLimit_result nowSince nowStamp r w) as Hresult.
  fold ip prior out in Hverdict, Hresult. simpl in Hresult.
  destruct out as [w' admitted]. simpl in *. split_and!.
  - rewrite Hverdict. destruct prior as [t|].
    + rewrite bool_decide_eq_true. split; [eauto|].
      by intros [?|(t' & [= <-] & ?)].
    + split; auto.
  - intros ->. injection Hresult as ->. split; [done|]. intros later stamp.
    rewrite CheckRateLimit_verdict. simpl. by rewrite lookup_insert_eq.
  - intros ->. injection Hresult as ->. split; [done|].
    intros t later stamp Hprior Hlater.
    rewrite CheckRateLimit_verdict. simpl. fold ip prior. rewrite Hprior.
    by apply bool_decide_eq_true_2.
  - by destruct admitted; injection Hresult as ->.
  - by destruct admitted; injection Hresult as ->.
Qed.

(** ** Session initiation *)

Lemma toWrite_bounds size totalWritten :
  totalWritten < size →
  0 < toWrite size totalWritten ≤ bufLen
  ∧ toWrite size totalWritten ≤ size - totalWritten.
Proof. unfold toWrite, bufLen. intros. case_decide; lia. Qed.

(** The loop of [generateRandomFile] on a disk that accepts the writes: it
    ends, it appends the next [size - totalWritten] bytes of the random
    stream to the file, and it does so in writes of at most [bufLen] bytes
    each. *)
Lemma writeLoop_ok path size (n : nat) :
  ∀ g fs totalWritten old,
    Z.to_nat (size - totalWritten) = n →
    fault fs OpWrite path = false →
    files fs !! path = Some old →
    ∃ chunks,
      writeLoop path size g fs totalWritten
      = (mkFS (<[path := (old ++ (stream g <$> seqZ (offset g) (size - totalWritten)))%list]>
                 (files fs))
              (fault fs)
              (journal fs ++ (EvWrite path <$> chunks))%list, None)
      ∧ Forall (λ c, 0 < c ≤ bufLen) chunks
      ∧ foldr Z.add 0 chunks = Z.max 0 (size - totalWritten).
Proof.
  induction (lt_wf n) as [n _ IH]. intros g fs totalWritten old Hn Hfault Hold.
  rewrite writeLoop_equation_1. destruct (decide (totalWritten < size)) as [Hlt|Hge]; simpl.
  - destruct (toWrite_bounds size totalWritten Hlt) as [[Hpos Hbuf] Hrem].
    unfold os.Write at 1. rewrite Hfault. simpl.
    set (k := toWrite size totalWritten) in *.
    set (fs' := mkFS _ _ _).
    edestruct (IH (Z.to_nat (size - (totalWritten + k))) ltac:(lia)
                 (mkRNG (stream g) (offset g + k)) fs' (totalWritten + k))
      as (chunks & Heq & Hall & Hsum); [done|done| |].
    { subst fs'. simpl. rewrite Hold. simpl. apply lookup_insert_eq. }
    exists (k :: chunks). split_and!.
    + rewrite Heq. subst fs'. simpl. f_equal. f_equal.
      * rewrite insert_insert_eq. f_equal. rewrite <-(assoc_L (++)). f_equal.
        rewrite <-fmap_app. f_equal.
        replace (size - totalWritten) with (k + (size - (totalWritten + k))) by lia.
        rewrite seqZ_app by lia. done.
      * rewrite <-(assoc_L (++)). simpl. do 3 f_equal.
        rewrite length_fmap, length_seqZ. lia.
    + constructor; [lia|done].
    + simpl. rewrite Hsum. lia.
  - exists []. split_and!.
    + rewrite seqZ_nil by lia. simpl. rewrite !(right_id_L [] (++)).
      rewrite insert_id by done. by destruct fs.
    + constructor.
    + simpl. lia.
Qed.

Lemma allowedSizes_lookup sel size :
  allowedSizes !! sel = Some size →
  sel ∈ [5; 10; 20; 50; 100; 200; 500; 1000] ∧ size = sel * 1024 * 1024.
Proof.
  intros H. apply elem_of_list_to_map_2 in H.
  repeat (apply elem_of_cons in H as [[= -> ->]|H]; [split; [set_solver|lia]|]).
  by apply elem_of_nil in H.
Qed.

Lemma generateRandomFile_ok (e : InitEnv) path size fs :
  fault fs OpCreate path = false →
  fault fs OpWrite path = false →
  ∃ chunks,
    generateRandomFile e path size fs
    = (mkFS (<[path := randSource e (time.UnixNano (nowSeed e)) <$> seqZ 0 size]> (files fs))
            (fault fs)
            (journal fs ++ EvCreate path :: (EvWrite path <$> chunks))%list, None)
    ∧ Forall (λ c, 0 < c ≤ bufLen) chunks
    ∧ foldr Z.add 0 chunks = Z.max 0 size.
Proof.
  intros Hcreate Hwrite. unfold generateRandomFile, os.Create. rewrite Hcreate.
  set (fs1 := mkFS _ _ _).
  destruct (writeLoop_ok path size (Z.to_nat (size - 0))
              (rand.Seed (randSource e) (time.UnixNano (nowSeed e))) fs1 0 [])
    as (chunks & Heq & Hall & Hsum); [done|done|apply lookup_insert_eq|].
  exists chunks. rewrite Heq. subst fs1. simpl.
  rewrite insert_insert_eq, Z.sub_0_r, <-(assoc_L (++)) in *. done.
Qed.

Lemma computeFileHash_ok fs path data :
  fault fs OpOpen path = false →
  fault fs OpRead path = false →
  files fs !! path = Some data →
  computeFileHash fs path = (hex.EncodeToString (sha256.Sum data), None).
Proof.
  intros Hopen Hread Hfile. unfold computeFileHash, os.Open, os.ReadAll.
  by rewrite Hopen, Hread, Hfile.
Qed.

(** The world and the answer of an initiation that is admitted, asks for an
    allowed size and meets no I/O error. *)
Lemma InitDownload_ok (e : InitEnv) (r : Request DownloadInitRequest) (w : World)
    (req : DownloadInitRequest) (size : Z) :
  Body r = Some req →
  allowedSizes !! SizeMB req = Some size →
  (CheckRateLimit (nowSince e) (nowStamp e) r w).2 = true →
  let path := filepath.Join "tmpdata" (newUUID e ++ ".bin") in
  (∀ op, op ∈ [OpCreate; OpWrite; OpOpen; OpRead] → fault (disk w) op path = false) →
  let data := randSource e (time.UnixNano (nowSeed e)) <$> seqZ 0 size in
  let hash := hex.EncodeToString (sha256.Sum data) in
  let seen' := <[getClientIP r := nowStamp e]> (lastAccessMap (handler w)) in
  ∃ chunks,
    InitDownload e r w
    = (mkWorld
         (mkHandler
            (<[newUUID e := mkSession path hash "sha256" size (nowCreated e) 0]>
               (sessions (handler w)))
            seen')
         (mkFS (<[path := data]> (files (disk w))) (fault (disk w))
               (journal (disk w) ++ EvCreate path :: (EvWrite path <$> chunks))%list)
         (logged w ++ [LogAccessGranted (getClientIP r) seen'])%list,
       http.JSON (InitJSON (mkInitResponse (newUUID e) size "sha256" hash)))
    ∧ Forall (λ c, 0 < c ≤ bufLen) chunks
    ∧ foldr Z.add 0 chunks = size.
Proof.
  intros Hbody Hsize Hadmit path Hfault data hash seen'.
  assert (fault (disk w) OpCreate path = false) as Hcreate by (apply Hfault; set_solver).
  assert (fault (disk w) OpWrite path = false) as Hwrite by (apply Hfault; set_solver).
  assert (fault (disk w) OpOpen path = false) as Hopen by (apply Hfault; set_solver).
  assert (fault (disk w) OpRead path = false) as Hread by (apply Hfault; set_solver).
  destruct (generateRandomFile_ok e path size (disk w)) as (chunks & Hgen & Hall & Hsum);
    [done..|].
  exists chunks. split_and!; [|done|].
  - unfold InitDownload. rewrite CheckRateLimit_result, Hadmit. simpl.
    rewrite Hbody, Hsize. fold path. rewrite Hgen.
    erewrite computeFileHash_ok; [done|simpl; done..|simpl; apply lookup_insert_eq].
  - apply allowedSizes_lookup in Hsize as [Hin ->]. rewrite Hsum.
    repeat (apply elem_of_cons in Hin as [->|Hin]; [lia|]). by apply elem_of_nil in Hin.
Qed.

(** C7. For every allowed size selector, an initiation that is admitted by the
    rate limiter and meets no I/O error answers with a session whose artifact
    holds exactly [selector * 1024 * 1024] bytes (the leading bytes of the
    random stream), written after one [os.Create] in writes of at most
    [1024 * 1024] bytes each that add up to the size; the [expected_hash] of
    the answer and of the registered session is the hexadecimal SHA-256
    digest of exactly those bytes, and the algorithm is reported as
    [sha256]. *)
Theorem InitDownload_artifact (e : InitEnv) (r : Request DownloadInitRequest)
    (w : World) (req : DownloadInitRequest) (size : Z) :
  Body r = Some req →
  allowedSizes !! SizeMB req = Some size →
  (CheckRateLimit (nowSince e) (nowStamp e) r w).2 = true →
  let path := "tmpdata/" ++ newUUID e ++ ".bin" in
  (∀ op, op ∈ [OpCreate; OpWrite; OpOpen; OpRead] → fault (disk w) op path = false) →
  let out := InitDownload e r w in
  ∃ data chunks,
    size = SizeMB req * 1024 * 1024
    ∧ files (disk out.1) !! path = Some data
    ∧ Z.of_nat (length data) = size
    ∧ data = randSource e (time.UnixNano (nowSeed e)) <$> seqZ 0 size
    ∧ journal (disk out.1)
      = (journal (disk w) ++ EvCreate path :: (EvWrite path <$> chunks))%list
    ∧ Forall (λ c, 0 < c ≤ 1024 * 1024) chunks
    ∧ foldr Z.add 0 chunks = size
    ∧ out.2
      = http.JSON
          (InitJSON
             (mkInitResponse (newUUID e) size "sha256"
                (hex.EncodeToString (sha256.Sum data))))
    ∧ sessions (handler out.1) !! newUUID e
      = Some (mkSession path (hex.EncodeToString (sha256.Sum data)) "sha256" size
                (nowCreated e) 0).
Proof.
  intros Hbody Hsize Hadmit path Hfault out. subst out.
  destruct (InitDownload_ok e r w req size Hbody Hsize Hadmit Hfault)
    as (chunks & -> & Hall & Hsum).
  pose proof (allowedSizes_lookup _ _ Hsize) as [Hin Heq].
  eexists _, chunks. simpl. split_and!; try done.
  - apply lookup_insert_eq.
  - rewrite length_fmap, length_seqZ.
    repeat (apply elem_of_cons in Hin as [Hsel|Hin]; [lia|]). by apply elem_of_nil in Hin.
  - apply lookup_insert_eq.
Qed.

Lemma InitDownload_artifact_witness :
  let e := SampleInit.env in
  let r := Sample.init 5 in
  let w := Sample.empty in
  let path := "tmpdata/" ++ newUUID e ++ ".bin" in
  let out := InitDownload e r w in
  (allowedSizes !! 5 = Some 5242880
   ∧ (CheckRateLimit (nowSince e) (nowStamp e) r w).2 = true)
  ∧ ∃ data chunks,
      5242880 = SizeMB (mkInitRequest 5) * 1024 * 1024
      ∧ files (disk out.1) !! path = Some data
      ∧ Z.of_nat (length data) = 5242880
      ∧ data = randSource e (time.UnixNano (nowSeed e)) <$> seqZ 0 5242880
      ∧ journal (disk out.1)
        = (journal (disk w) ++ EvCreate path :: (EvWrite path <$> chunks))%list
      ∧ Forall (λ c, 0 < c ≤ 1024 * 1024) chunks
      ∧ foldr Z.add 0 chunks = 5242880
      ∧ out.2
        = http.JSON
            (InitJSON
               (mkInitResponse (newUUID e) 5242880 "sha256"
                  (hex.EncodeToString (sha256.Sum data))))
      ∧ sessions (handler out.1) !! newUUID e
        = Some (mkSession path (hex.EncodeToString (sha256.Sum data)) "sha256" 5242880
                  (nowCreated e) 0).
Proof.
  intros e r w path out. split; [split; reflexivity|].
  exact (InitDownload_artifact e r w (mkInitRequest 5) 5242880
           eq_refl eq_refl eq_refl (λ _ _, eq_refl)).
Defined.

(** C5 fails as stated: the rate limiter runs before the request is
    validated. An initiation with size selector 7, or with a body that does
    not decode, is answered 400 and has already stored the client's clock
    reading in [lastAccessMap]; a valid initiation by the same client one
    second later is then refused with 429. *)
Lemma invalid_initiation_is_counted :
  let e := SampleInit.env in
  let bad := InitDownload e (Sample.init 7) Sample.empty in
  let malformed :=
    InitDownload e (mkRequest "" "10.0.0.7:4711" "" None) Sample.empty in
  StatusCode bad.2 = 400
  ∧ StatusCode malformed.2 = 400
  ∧ lastAccessMap (handler Sample.empty) !! "10.0.0.7" = None
  ∧ lastAccessMap (handler bad.1) !! "10.0.0.7" = Some 7000000050
  ∧ lastAccessMap (handler malformed.1) !! "10.0.0.7" = Some 7000000050
  ∧ StatusCode (InitDownload SampleInit.later (Sample.init 5) bad.1).2 = 429.
Proof. repeat split. Qed.

(** C5 (amended). [InitDownload] answers 400 exactly when the rate limiter
    admitted the request and the body does not decode or its size selector is
    not an allowed one. In that case no artifact is created and no session is
    registered (the session map and the disk are unchanged), but the
    admission has been recorded: the client's entry of [lastAccessMap] is set
    to the clock reading of the request, and the admission is logged. *)
Theorem InitDownload_invalid_input (e : InitEnv) (r : Request DownloadInitRequest)
    (w : World) :
  let out := InitDownload e r w in
  let ip := getClientIP r in
  let seen' := <[ip := nowStamp e]> (lastAccessMap (handler w)) in
  (StatusCode out.2 = http.StatusBadRequest ↔
     (CheckRateLimit (nowSince e) (nowStamp e) r w).2 = true
     ∧ (Body r = None
        ∨ ∃ req, Body r = Some req ∧ allowedSizes !! SizeMB req = None))
  ∧ (StatusCode out.2 = http.StatusBadRequest →
     sessions (handler out.1) = sessions (handler w)
     ∧ disk out.1 = disk w
     ∧ lastAccessMap (handler out.1) = seen'
     ∧ logged out.1 = (logged w ++ [LogAccessGranted ip seen'])%list).
Proof.
  intros out ip seen'. subst out. unfold InitDownload.
  rewrite CheckRateLimit_result.
  destruct (CheckRateLimit (nowSince e) (nowStamp e) r w).2; simpl.
  2: { split; [split; [done|by intros [? _]]|done]. }
  destruct (Body r) as [req|]; simpl.
  2: { split; [split; [auto|done]|done]. }
  destruct (allowedSizes !! SizeMB req) as [size|] eqn:Hsize; simpl.
  2: { split; [split; [eauto|done]|done]. }
  assert (¬ (Some req = None ∨ ∃ req0, Some req = Some req0
                                      ∧ allowedSizes !! SizeMB req0 = None)) as Hvalid.
  { intros [?|(req0 & [= <-] & Hnone)]; [done|]. by rewrite Hsize in Hnone. }
  destruct (generateRandomFile _ _ _ _) as [fs2 [err|]]; simpl.
  { split; [split; [done|by intros [_ ?]]|done]. }
  destruct (computeFileHash _ _) as [hash [err|]]; simpl.
  { split; [split; [done|by intros [_ ?]]|done]. }
  split; [split; [done|by intros [_ ?]]|done].
Qed.

(** ** Verification *)

(** C3. When the client's digest equals the session's [ExpectedHash],
    [VerifyDownload] first removes the artifact and removes the session entry
    only after that removal succeeded: if [os.Remove] reports an error, the
    answer is 500, the error is logged, and the handler's maps (the session
    entry included) and the disk are exactly as before; if it succeeds, the
    answer is [success], the file is gone and the entry is deleted. *)
Theorem VerifyDownload_match (r : Request DownloadVerifyRequest) (w : World)
    (req : DownloadVerifyRequest) (sess : Session) :
  Body r = Some req →
  sessions (handler w) !! SessionID req = Some sess →
  ComputedHash req = ExpectedHash sess →
  let out := VerifyDownload r w in
  let removal := os.Remove (disk w) (FilePath sess) in
  (∀ err, removal.2 = Some err →
     out.2 = http.Error "File removal failed" http.StatusInternalServerError
     ∧ handler out.1 = handler w
     ∧ sessions (handler out.1) !! SessionID req = Some sess
     ∧ disk out.1 = disk w
     ∧ logged out.1 = (logged w ++ [LogRemoveError err])%list)
  ∧ (removal.2 = None →
     out.2 = http.JSON (VerifyJSON (mkVerifyResponse "success"))
     ∧ files (disk out.1) = delete (FilePath sess) (files (disk w))
     ∧ journal (disk out.1) = (journal (disk w) ++ [EvRemove (FilePath sess)])%list
     ∧ sessions (handler out.1) = delete (SessionID req) (sessions (handler w))
     ∧ lastAccessMap (handler out.1) = lastAccessMap (handler w)
     ∧ logged out.1 = logged w).
Proof.
  intros Hbody Hsess Hhash out removal. subst out removal.
  unfold VerifyDownload. rewrite Hbody, Hsess. simpl.
  rewrite decide_True by done.
  destruct (os.Remove (disk w) (FilePath sess)) as [fs' [err|]] eqn:Hrm; simpl.
  - split; [|done]. intros ? [= <-]. by rewrite Hsess.
  - split; [done|]. intros _.
    pose proof (Remove_ok (disk w) (FilePath sess)) as Hok.
    rewrite Hrm in Hok. simpl in Hok. destruct (Hok eq_refl) as (_ & _ & ->). done.
Qed.

Lemma VerifyDownload_match_witness :
  let r := Sample.verify "u1" Sample.digest in
  (Body r = Some (mkVerifyRequest "u1" Sample.digest)
   ∧ sessions (handler Sample.stuck) !! "u1" = Some Sample.sess
   ∧ (os.Remove (disk Sample.stuck) Sample.path).2
     = Some (PathError OpRemove Sample.path))
  ∧ (VerifyDownload r Sample.stuck).2
    = http.Error "File removal failed" http.StatusInternalServerError
  ∧ sessions (handler (VerifyDownload r Sample.stuck).1) !! "u1" = Some Sample.sess
  ∧ (VerifyDownload r Sample.world).2
    = http.JSON (VerifyJSON (mkVerifyResponse "success"))
  ∧ sessions (handler (VerifyDownload r Sample.world).1)
    = delete "u1" (sessions (handler Sample.world)).
Proof.
  intros r.
  pose proof (VerifyDownload_match r Sample.stuck (mkVerifyRequest "u1" Sample.digest)
                Sample.sess eq_refl eq_refl eq_refl) as [Hfail _].
  pose proof (VerifyDownload_match r Sample.world (mkVerifyRequest "u1" Sample.digest)
                Sample.sess eq_refl eq_refl eq_refl) as [_ Hok].
  destruct (Hfail (PathError OpRemove Sample.path) eq_refl) as (H1 & _ & H2 & _).
  destruct (Hok eq_refl) as (H3 & _ & _ & H4 & _).
  repeat split; assumption || reflexivity.
Defined.

(** C8. When the client's digest differs from the session's [ExpectedHash],
    [VerifyDownload] answers 400 "Hash mismatch" and returns the world
    unchanged: the session entry and the artifact are still there, a transfer
    of the session behaves as it did before (and, asked for without [Range]
    or [If-*] headers, delivers the artifact when it is readable), and the
    verification can be repeated with the same outcome. *)
Theorem VerifyDownload_mismatch (r : Request DownloadVerifyRequest) (w : World)
    (req : DownloadVerifyRequest) (sess : Session) :
  Body r = Some req →
  sessions (handler w) !! SessionID req = Some sess →
  ComputedHash req ≠ ExpectedHash sess →
  let out := VerifyDownload r w in
  out = (w, http.Error "Hash mismatch" http.StatusBadRequest)
  ∧ sessions (handler out.1) !! SessionID req = Some sess
  ∧ files (disk out.1) !! FilePath sess = files (disk w) !! FilePath sess
  ∧ (∀ B e (q : Request B), DownloadData e q out.1 = DownloadData e q w)
  ∧ (∀ B e (q : Request B) data,
       session_id q = SessionID req → SessionID req ≠ "" →
       unconditional (Conditions q) →
       files (disk w) !! FilePath sess = Some data →
       fault (disk w) OpOpen (FilePath sess) = false →
       fault (disk w) OpRead (FilePath sess) = false →
       (DownloadData e q out.1).2
       = mkResponse http.StatusOK
           [("Cache-Control", "no-cache, no-store, must-revalidate")] (Content data))
  ∧ VerifyDownload r out.1 = out.
Proof.
  intros Hbody Hsess Hhash out.
  assert (out = (w, http.Error "Hash mismatch" http.StatusBadRequest)) as Hout.
  { subst out. unfold VerifyDownload. rewrite Hbody, Hsess. simpl.
    by rewrite decide_False. }
  rewrite Hout. simpl. split_and!; try done.
  intros B e q data Hq Hne Hplain Hfile Hopen Hread.
  unfold DownloadData. rewrite Hq, decide_False, Hsess by done.
  unfold os.Open. rewrite Hopen, Hfile. simpl.
  unfold ServeContent, os.ReadAll. by rewrite decide_True, Hread, Hfile.
Qed.

Lemma VerifyDownload_mismatch_witness :
  let r := Sample.verify "u1" "00" in
  (Body r = Some (mkVerifyRequest "u1" "00")
   ∧ sessions (handler Sample.world) !! "u1" = Some Sample.sess)
  ∧ VerifyDownload r Sample.world
    = (Sample.world, http.Error "Hash mismatch" http.StatusBadRequest)
  ∧ (DownloadData Sample.oneSecond (Sample.query "u1") (VerifyDownload r Sample.world).1).2
    = mkResponse http.StatusOK
        [("Cache-Control", "no-cache, no-store, must-revalidate")]
        (Content Sample.data).
Proof.
  intros r.
  assert (ComputedHash (mkVerifyRequest "u1" "00") ≠ ExpectedHash Sample.sess) as Hne
    by (simpl; discriminate).
  destruct (VerifyDownload_mismatch r Sample.world (mkVerifyRequest "u1" "00")
              Sample.sess eq_refl eq_refl Hne) as (H1 & _ & _ & _ & H2 & _).
  split; [split; reflexivity|]. split; [exact H1|].
  apply (H2 unit Sample.oneSecond (Sample.query "u1") Sample.data);
    (reflexivity || (simpl; discriminate) || (repeat split)).
Defined.

(** A session whose correct digest is verified is deleted from [h.sessions]
    together with its artifact, and [GetSpeed] reads the speed from that
    entry: before the verification it answers with the measured speed, after
    the successful verification it answers 404 "Invalid session_id". *)
Lemma GetSpeed_after_verify {B} (r : Request DownloadVerifyRequest) (q : Request B)
    (w : World) (req : DownloadVerifyRequest) (sess : Session) :
  Body r = Some req →
  sessions (handler w) !! SessionID req = Some sess →
  ComputedHash req = ExpectedHash sess →
  (os.Remove (disk w) (FilePath sess)).2 = None →
  session_id q = SessionID req →
  SessionID req ≠ "" →
  (GetSpeed q w).2
  = http.JSON (encodeSpeed (mkSpeedResponse (SessionID req) (DownloadSpeedMbps sess)))
  ∧ (VerifyDownload r w).2 = http.JSON (VerifyJSON (mkVerifyResponse "success"))
  ∧ (GetSpeed q (VerifyDownload r w).1).2
    = http.Error "Invalid session_id" http.StatusNotFound.
Proof.
  intros Hbody Hsess Hhash Hrm Hq Hne.
  split_and!.
  - unfold GetSpeed. by rewrite Hq, decide_False, Hsess.
  - unfold VerifyDownload. rewrite Hbody, Hsess. simpl.
    rewrite decide_True by done.
    destruct (os.Remove (disk w) (FilePath sess)) as [fs' [err|]]; by simplify_eq/=.
  - unfold VerifyDownload. rewrite Hbody, Hsess. simpl.
    rewrite decide_True by done.
    destruct (os.Remove (disk w) (FilePath sess)) as [fs' [err|]]; simplify_eq/=.
    unfold GetSpeed. rewrite Hq, decide_False by done. simpl.
    by rewrite lookup_delete_eq.
Qed.

(** On the sample world: one transfer of one second
    (40 Mbps for 5 MiB), a first speed lookup, the verification with the
    correct digest, and a second speed lookup. *)
Example GetSpeed_after_verify_sample :
  let w1 := (DownloadData Sample.oneSecond (Sample.query "u1") Sample.world).1 in
  let r := Sample.verify "u1" Sample.digest in
  (GetSpeed (Sample.query "u1") w1).2
  = http.JSON (SpeedJSON (mkSpeedResponse "u1" 40))
  ∧ (VerifyDownload r w1).2 = http.JSON (VerifyJSON (mkVerifyResponse "success"))
  ∧ (GetSpeed (Sample.query "u1") (VerifyDownload r w1).1).2
    = http.Error "Invalid session_id" http.StatusNotFound.
Proof.
  intros w1 r.
  assert (SessionID (mkVerifyRequest "u1" Sample.digest) ≠ "") as Hne
    by (simpl; discriminate).
  exact (GetSpeed_after_verify r (Sample.query "u1") w1
           (mkVerifyRequest "u1" Sample.digest)
           (setSpeed 40 Sample.sess) eq_refl eq_refl eq_refl eq_refl eq_refl Hne).
Defined.

(** ** Binary64 arithmetic

    The kernel's operations on [float] are specified by the functions of
    [SpecFloat] on [spec_float] ([FloatAxioms]). The lemmas below follow the
    sign of a value through rounding, which is enough to see where a NaN can
    and cannot come from. *)

Lemma signed_number s x : Float64.signed s x → x ≠ S754_nan.
Proof. by destruct x. Qed.

(** Shifting a mantissa to the right keeps it non-negative. *)
Lemma shr_1_nonneg mrs : 0 ≤ shr_m mrs → 0 ≤ shr_m (shr_1 mrs).
Proof. destruct mrs as [[|[p|p|]|[p|p|]] r s]; simpl; lia. Qed.

Lemma iter_shr_1_nonneg n mrs :
  0 ≤ shr_m mrs → 0 ≤ shr_m (SpecFloat.iter_pos shr_1 n mrs).
Proof.
  revert mrs. induction n as [n IH|n IH|]; simpl; intros mrs Hm.
  - apply IH, IH, shr_1_nonneg, Hm.
  - apply IH, IH, Hm.
  - apply shr_1_nonneg, Hm.
Qed.

Lemma shr_fexp_nonneg prec emax m e l :
  0 ≤ m → 0 ≤ shr_m (shr_fexp prec emax m e l).1.
Proof.
  intros Hm. unfold shr_fexp, shr.
  assert (0 ≤ shr_m (shr_record_of_loc m l)) as Hrec by (by destruct l as [|[]]).
  destruct (fexp prec emax (Zdigits2 m + e) - e); simpl; [done| |done].
  by apply iter_shr_1_nonneg.
Qed.

Lemma round_nearest_even_nonneg m l : 0 ≤ m → 0 ≤ round_nearest_even m l.
Proof.
  intros Hm. destruct l as [|[]]; simpl; [done| |done|lia].
  destruct (Z.even m); lia.
Qed.

(** Rounding a non-negative mantissa with sign [s] gives a zero, a finite
    number or an infinity of that sign, never a NaN. *)
Lemma binary_round_aux_signed prec emax s m e l :
  0 ≤ m → Float64.signed s (binary_round_aux prec emax s m e l).
Proof.
  intros Hm. unfold binary_round_aux.
  pose proof (shr_fexp_nonneg prec emax m e l Hm) as H1.
  destruct (shr_fexp prec emax m e l) as [mrs1 e1]. simpl in H1.
  pose proof (shr_fexp_nonneg prec emax _ e1 loc_Exact
                (round_nearest_even_nonneg _ (loc_of_shr_record mrs1) H1)) as H2.
  destruct (shr_fexp prec emax _ e1 loc_Exact) as [mrs2 e2]. simpl in H2.
  destruct (shr_m mrs2); [done| |lia].
  by destruct (e2 <=? emax - prec)%Z.
Qed.

Lemma binary_round_signed prec emax s m e :
  Float64.signed s (binary_round prec emax s m e).
Proof.
  unfold binary_round. destruct (shl_align _ _ _) as [mz ez].
  by apply binary_round_aux_signed.
Qed.

Lemma binary_normalize_signed prec emax (s : bool) m e sz :
  (if s then m ≤ 0 else 0 ≤ m) → Float64.signed s (binary_normalize prec emax m e sz).
Proof.
  destruct m as [|p|p]; simpl; [done|..]; destruct s; try lia;
    intros _; apply binary_round_signed.
Qed.

Lemma binary_normalize_number prec emax m e sz :
  binary_normalize prec emax m e sz ≠ S754_nan.
Proof.
  destruct m as [|p|p]; simpl; [done|..]; eapply signed_number, binary_round_signed.
Qed.

Lemma SFopp_signed s x : Float64.signed s x → Float64.signed (negb s) (SFopp x).
Proof. destruct x; simpl; congruence. Qed.

(** A sum is a NaN only for a NaN operand or for infinities of opposite
    signs. *)
Lemma SFadd_signed prec emax s x y :
  Float64.signed s x → Float64.signed s y → SFadd prec emax x y ≠ S754_nan.
Proof.
  destruct x as [sx|sx| |sx mx ex], y as [sy|sy| |sy my ey]; simpl; try done;
    try (intros; by repeat case_match).
  - intros -> ->. by destruct s.
  - intros _ _. apply binary_normalize_number.
Qed.

(** A product with a finite non-zero factor is a NaN only for a NaN. *)
Lemma SFmul_finite prec emax x s m e :
  x ≠ S754_nan → SFmul prec emax x (S754_finite s m e) ≠ S754_nan.
Proof.
  destruct x as [sx|sx| |sx mx ex]; simpl; try done.
  intros _. eapply signed_number, binary_round_aux_signed. lia.
Qed.

Lemma SFdiv_core_nonneg prec emax m1 e1 m2 e2 :
  0 ≤ (SFdiv_core_binary prec emax (Z.pos m1) e1 (Z.pos m2) e2).1.1.
Proof.
  unfold SFdiv_core_binary. cbv zeta.
  set (m' := match _ - _ - _ with Z0 => _ | Z.pos _ => _ | Z.neg _ => _ end).
  assert (0 ≤ m') as Hm.
  { subst m'. destruct (_ - _ - _); [lia| |lia]. apply Z.shiftl_nonneg. lia. }
  pose proof (Z.div_pos m' (Z.pos m2) Hm ltac:(lia)) as Hq.
  unfold Z.div in Hq. by destruct (Z.div_eucl m' (Z.pos m2)).
Qed.

Lemma SFdiv_finite_finite prec emax sx mx ex sy my ey :
  Float64.signed (xorb sx sy)
    (SFdiv prec emax (S754_finite sx mx ex) (S754_finite sy my ey)).
Proof.
  simpl. pose proof (SFdiv_core_nonneg prec emax mx ex my ey) as Hq.
  destruct (SFdiv_core_binary _ _ _ _ _ _) as [[mz ez] lz].
  by apply binary_round_aux_signed.
Qed.

Lemma SFdiv_signed prec emax s x m e :
  Float64.signed s x → Float64.signed s (SFdiv prec emax x (S754_finite false m e)).
Proof.
  destruct x as [sx|sx| |sx mx ex]; try done.
  - simpl. intros <-. by destruct sx.
  - intros <-. pose proof (SFdiv_finite_finite prec emax sx mx ex false m e) as H.
    by rewrite xorb_false_r in H.
Qed.

(** A finite non-zero dividend gives a NaN only for a NaN divisor (a zero
    divisor gives an infinity). *)
Lemma SFdiv_finite prec emax s m e y :
  y ≠ S754_nan → SFdiv prec emax (S754_finite s m e) y ≠ S754_nan.
Proof.
  destruct y as [sy|sy| |sy my ey]; try done.
  intros _. eapply signed_number, SFdiv_finite_finite.
Qed.

Lemma SFeqb_refl x : x ≠ S754_nan → SFeqb x x = true.
Proof.
  unfold SFeqb. destruct x as [s|s| |s m e]; simpl; try done.
  - by destruct s.
  - intros _. rewrite Z.compare_refl, Pos.compare_cont_refl. by destruct s.
Qed.

Lemma is_nan_false x : Prim2SF x ≠ S754_nan → is_nan x = false.
Proof.
  intros H. unfold is_nan. by rewrite FloatAxioms.eqb_spec, SFeqb_refl.
Qed.

(** [float64(n)] has the sign of [n]. *)
Lemma of_int64_signed (s : bool) n :
  (if s then n ≤ 0 else 0 ≤ n) → Float64.signed s (Prim2SF (Float64.of_int64 n)).
Proof.
  intros Hn. destruct n as [|p|p]; simpl.
  - done.
  - destruct s; [lia|]. rewrite FloatAxioms.of_uint63_spec.
    apply binary_normalize_signed. apply to_Z_bounded.
  - destruct s; [|lia]. case_decide.
    + reflexivity.
    + rewrite FloatAxioms.opp_spec, FloatAxioms.of_uint63_spec.
      apply (SFopp_signed false), binary_normalize_signed. apply to_Z_bounded.
Qed.

(** [d.Seconds()] is never a NaN: [d / Second] and [d % Second] have the
    sign of [d]. *)
Lemma Seconds_number d : Prim2SF (time.Seconds d) ≠ S754_nan.
Proof.
  unfold time.Seconds. rewrite FloatAxioms.add_spec, FloatAxioms.div_spec.
  assert (∃ m e, Prim2SF 1e9 = S754_finite false m e) as (m & e & ->)
    by (vm_compute; eauto).
  assert (time.Second ≠ 0) as Hs by done.
  destruct (Z.le_ge_cases 0 d) as [Hd|Hd].
  - apply (SFadd_signed _ _ false); [|apply SFdiv_signed];
      apply of_int64_signed.
    + apply Z.quot_pos; [done|]. by unfold time.Second.
    + by apply Z.rem_nonneg.
  - apply (SFadd_signed _ _ true); [|apply SFdiv_signed];
      apply of_int64_signed.
    + replace d with (- - d) by lia. rewrite Z.quot_opp_l by done.
      pose proof (Z.quot_pos (- d) time.Second ltac:(lia)
                    ltac:(unfold time.Second; lia)). lia.
    + by apply Z.rem_nonpos.
Qed.

(** For the allowed sizes the numerator [float64(size) * 8] is finite and
    not zero, so the speed is a NaN only for a NaN duration. *)
Lemma speedMbps_number size duration :
  (∃ sel, allowedSizes !! sel = Some size) →
  Prim2SF duration ≠ S754_nan →
  is_nan (speedMbps size duration) = false.
Proof.
  intros [sel Hsize] Hd. apply is_nan_false. unfold speedMbps.
  rewrite FloatAxioms.div_spec, !FloatAxioms.mul_spec.
  assert (∃ m e, Prim2SF 1024 = S754_finite false m e) as (m & e & ->)
    by (vm_compute; eauto).
  assert (∃ s m e, SF64mul (Prim2SF (Float64.of_int64 size)) (Prim2SF 8)
                   = S754_finite s m e) as (s' & m' & e' & ->).
  { apply allowedSizes_lookup in Hsize as [Hin ->].
    repeat (apply elem_of_cons in Hin as [->|Hin]; [vm_compute; eauto|]).
    by apply elem_of_nil in Hin. }
  by apply SFdiv_finite, SFmul_finite, SFmul_finite.
Qed.

(** A duration of zero gives [+Inf]. *)
Lemma speedMbps_zero_elapsed size :
  (∃ sel, allowedSizes !! sel = Some size) →
  speedMbps size (time.Seconds 0) = infinity.
Proof.
  intros [sel Hsize]. apply allowedSizes_lookup in Hsize as [Hin ->].
  repeat (apply elem_of_cons in Hin as [->|Hin]; [reflexivity|]).
  by apply elem_of_nil in Hin.
Qed.

(** ** Transfer and speed lookup *)

(** C9 fails as stated: a request without [session_id] is answered 400
    "session_id is required" by both handlers, not 404. *)
Lemma missing_session_id_is_400 :
  (DownloadData Sample.oneSecond (Sample.query "") Sample.world).2
  = http.Error "session_id is required" 400
  ∧ (GetSpeed (Sample.query "") Sample.world).2
    = http.Error "session_id is required" 400
  ∧ StatusCode (DownloadData Sample.oneSecond (Sample.query "") Sample.world).2 ≠ 404
  ∧ StatusCode (GetSpeed (Sample.query "") Sample.world).2 ≠ 404.
Proof. repeat split; discriminate. Qed.

(** C9 (amended). For [DownloadData] and [GetSpeed] alike: a request whose
    [session_id] is missing (empty) is answered 400 "session_id is required";
    a request whose non-empty [session_id] names no session in the store is
    answered 404 "Invalid session_id". Neither changes the world. *)
Theorem session_lookup_errors {B} (e : TransferEnv) (r : Request B) (w : World) :
  (session_id r = "" →
     DownloadData e r w = (w, http.Error "session_id is required" http.StatusBadRequest)
     ∧ GetSpeed r w = (w, http.Error "session_id is required" http.StatusBadRequest))
  ∧ (session_id r ≠ "" → sessions (handler w) !! session_id r = None →
     DownloadData e r w = (w, http.Error "Invalid session_id" http.StatusNotFound)
     ∧ GetSpeed r w = (w, http.Error "Invalid session_id" http.StatusNotFound)).
Proof.
  unfold DownloadData, GetSpeed. split.
  - intros ->. by rewrite !decide_True.
  - intros Hne Hnone. by rewrite !decide_False, Hnone.
Qed.

(** The outcome of one transfer of a session that is in the store. *)
Lemma DownloadData_present {B} (e : TransferEnv) (r : Request B) (w : World) sess :
  session_id r ≠ "" →
  sessions (handler w) !! session_id r = Some sess →
  DownloadData e r w =
  match os.Open (disk w) (FilePath sess) with
  | Some err =>
      (Printf (LogOpenError err) w,
       http.Error "Internal Server Error" http.StatusInternalServerError)
  | None =>
      let speed :=
        speedMbps (FileSize sess)
                  (time.Seconds (time.Sub (endTime e) (startTime e))) in
      (Printf (LogSpeed (session_id r) speed)
         (setSessions (<[session_id r := setSpeed speed sess]> (sessions (handler w))) w),
       ServeContent (negotiate e) r (modTime e) (disk w) (FilePath sess))
  end.
Proof.
  intros Hne Hsess. unfold DownloadData. by rewrite decide_False, Hsess.
Qed.

(** A transfer changes nothing but the speed field of the session it
    serves. *)
Lemma DownloadData_frame {B} (e : TransferEnv) (r : Request B) (w : World) sess :
  sessions (handler w) !! session_id r = Some sess →
  let w' := (DownloadData e r w).1 in
  (∃ v, sessions (handler w') !! session_id r = Some (setSpeed v sess))
  ∧ (∀ id, id ≠ session_id r →
       sessions (handler w') !! id = sessions (handler w) !! id)
  ∧ lastAccessMap (handler w') = lastAccessMap (handler w)
  ∧ disk w' = disk w.
Proof.
  intros Hsess w'. subst w'.
  assert (sessions (handler w) !! session_id r = Some (setSpeed (DownloadSpeedMbps sess) sess))
    as Hsame by (by destruct sess).
  destruct (decide (session_id r = "")) as [Hemp|Hne].
  - unfold DownloadData. rewrite decide_True by done. simpl. eauto.
  - rewrite (DownloadData_present e r w sess) by done.
    destruct (os.Open (disk w) (FilePath sess)); simpl; [eauto|].
    split_and!; try done.
    + eexists. by rewrite lookup_insert_eq.
    + intros id Hid. by rewrite lookup_insert_ne.
Qed.

(** C10. A transfer never consumes the session. After any number of transfers
    of a session present in the store (one per element of [es], each with its
    own clock readings) the entry is still there and differs from the
    original at most in [DownloadSpeedMbps] (its artifact path, expected
    digest, size and creation time are unchanged); all other sessions, the
    rate limiter's map and the disk (hence the artifact file) are unchanged;
    and a further transfer is answered exactly as the first one was. *)
Theorem DownloadData_repeatable {B} (es : list TransferEnv) (r : Request B)
    (w : World) (sess : Session) :
  sessions (handler w) !! session_id r = Some sess →
  let w' := foldl (λ w0 e, (DownloadData e r w0).1) w es in
  (∃ sess', sessions (handler w') !! session_id r = Some sess'
     ∧ FilePath sess' = FilePath sess
     ∧ ExpectedHash sess' = ExpectedHash sess
     ∧ HashAlgorithm sess' = HashAlgorithm sess
     ∧ FileSize sess' = FileSize sess
     ∧ CreatedAt sess' = CreatedAt sess)
  ∧ (∀ id, id ≠ session_id r →
       sessions (handler w') !! id = sessions (handler w) !! id)
  ∧ lastAccessMap (handler w') = lastAccessMap (handler w)
  ∧ disk w' = disk w
  ∧ (∀ e, (DownloadData e r w').2 = (DownloadData e r w).2).
Proof.
  intros Hsess w'. subst w'.
  cut (∃ v, sessions (handler (foldl (λ w0 e, (DownloadData e r w0).1) w es))
            !! session_id r = Some (setSpeed v sess)
          ∧ (∀ id, id ≠ session_id r →
               sessions (handler (foldl (λ w0 e, (DownloadData e r w0).1) w es)) !! id
               = sessions (handler w) !! id)
          ∧ lastAccessMap (handler (foldl (λ w0 e, (DownloadData e r w0).1) w es))
            = lastAccessMap (handler w)
          ∧ disk (foldl (λ w0 e, (DownloadData e r w0).1) w es) = disk w).
  { intros (v & Hv & Hothers & Hseen & Hdisk). split_and!; try done.
    - exists (setSpeed v sess). by destruct sess.
    - intros e. destruct (decide (session_id r = "")) as [Hemp|Hne].
      + unfold DownloadData. by rewrite !decide_True.
      + rewrite (DownloadData_present e r _ (setSpeed v sess)) by done.
        rewrite (DownloadData_present e r w sess) by done.
        rewrite Hdisk. simpl. by destruct (os.Open (disk w) (FilePath sess)). }
  revert w sess Hsess. induction es as [|e es IH]; intros w sess Hsess; simpl.
  - exists (DownloadSpeedMbps sess). split_and!; try done. by destruct sess.
  - destruct (DownloadData_frame e r w sess Hsess) as ((v & Hv) & Hothers & Hseen & Hdisk).
    destruct (IH _ _ Hv) as (v' & Hv' & Hothers' & Hseen' & Hdisk').
    exists v'. split_and!.
    + by rewrite Hv'.
    + intros id Hid. by rewrite Hothers', Hothers.
    + by rewrite Hseen'.
    + by rewrite Hdisk'.
Qed.

Lemma DownloadData_repeatable_witness :
  let r := Sample.query "u1" in
  let w' := foldl (λ w0 e, (DownloadData e r w0).1) Sample.world
                  [Sample.oneSecond; Sample.instant; Sample.oneSecond] in
  sessions (handler Sample.world) !! session_id r = Some Sample.sess
  ∧ (∃ sess', sessions (handler w') !! "u1" = Some sess'
       ∧ FilePath sess' = Sample.path
       ∧ ExpectedHash sess' = Sample.digest
       ∧ HashAlgorithm sess' = "sha256"
       ∧ FileSize sess' = 5 * 1024 * 1024
       ∧ CreatedAt sess' = 50)
  ∧ disk w' = disk Sample.world.
Proof.
  intros r w'.
  destruct (DownloadData_repeatable
              [Sample.oneSecond; Sample.instant; Sample.oneSecond] r Sample.world
              Sample.sess eq_refl) as (H1 & _ & _ & H2 & _).
  split; [reflexivity|]. split; [exact H1|exact H2].
Defined.

(** C2 fails as stated: the speed is written whenever streaming was started.
    From the initial world, a 5 MiB session is initiated and transferred.
    When the two clock readings of the transfer coincide, the elapsed time is
    zero and the value written is [+Inf] (which [GetSpeed] then cannot
    encode, so that it writes no body); and when reading the artifact fails
    while streaming (the body is cut short), the speed is written all the
    same. *)
Lemma zero_elapsed_writes_infinity :
  let id := newUUID SampleInit.env in
  let w1 := (InitDownload SampleInit.env (Sample.init 5) Sample.empty).1 in
  let zero := DownloadData Sample.instant (Sample.query id) w1 in
  let cut := DownloadData Sample.oneSecond (Sample.query id) (Sample.failReads w1) in
  time.Seconds (time.Sub (endTime Sample.instant) (startTime Sample.instant)) = 0%float
  ∧ DownloadSpeedMbps <$> sessions (handler w1) !! id = Some 0%float
  ∧ StatusCode zero.2 = 200
  ∧ DownloadSpeedMbps <$> sessions (handler zero.1) !! id = Some infinity
  ∧ Float64.is_finite infinity = false
  ∧ Written (GetSpeed (Sample.query id) zero.1).2 = Nothing
  ∧ Written cut.2 = Content []
  ∧ DownloadSpeedMbps <$> sessions (handler cut.1) !! id = Some 40%float.
Proof.
  intros id w1 zero cut.
  destruct (InitDownload_ok SampleInit.env (Sample.init 5) Sample.empty
              (mkInitRequest 5) 5242880 eq_refl eq_refl eq_refl (λ _ _, eq_refl))
    as (chunks & Hinit & _).
  subst zero cut w1. rewrite Hinit. repeat split.
Qed.

(** C2 (amended). Whenever [DownloadData] finds the session and can open its
    artifact, it writes
    [(float64(FileSize) * 8) / (elapsedSeconds * 1024 * 1024)], evaluated in
    binary64 arithmetic with [elapsedSeconds = endTime.Sub(startTime).Seconds()],
    into the session's [DownloadSpeedMbps]; there is no test on the elapsed
    time or on the outcome of streaming (the write is the same whatever
    [http.ServeContent] answered and whether or not the file could be read).
    For a session of one of the allowed sizes the value written is never a
    NaN, whatever the clock readings are, and it is [+Inf] when the two
    readings coincide. The write is skipped exactly when the request is
    rejected before streaming: missing or unknown [session_id], or an
    artifact that cannot be opened; the handler's state is then unchanged and
    the answer is not 200. *)
Theorem DownloadData_speed_write {B} (e : TransferEnv) (r : Request B) (w : World) :
  let out := DownloadData e r w in
  let id := session_id r in
  let elapsedSeconds := time.Seconds (time.Sub (endTime e) (startTime e)) in
  (∀ sess,
     id ≠ "" → sessions (handler w) !! id = Some sess →
     os.Open (disk w) (FilePath sess) = None →
     let speed :=
       ((Float64.of_int64 (FileSize sess) * 8)
        / (elapsedSeconds * 1024 * 1024))%float in
     sessions (handler out.1)
     = <[id := setSpeed speed sess]> (sessions (handler w))
     ∧ ((∃ sel, allowedSizes !! sel = Some (FileSize sess)) →
        is_nan speed = false
        ∧ (endTime e = startTime e → speed = infinity)))
  ∧ (id = "" ∨ sessions (handler w) !! id = None
     ∨ (∃ sess, sessions (handler w) !! id = Some sess
          ∧ is_Some (os.Open (disk w) (FilePath sess))) →
     handler out.1 = handler w ∧ StatusCode out.2 ≠ http.StatusOK).
Proof.
  intros out id elapsedSeconds. subst out id elapsedSeconds. split.
  - intros sess Hne Hsess Hopen speed.
    rewrite (DownloadData_present e r w sess) by done. rewrite Hopen.
    split; [done|]. intros Hsize. split.
    + apply (speedMbps_number (FileSize sess)); [done|apply Seconds_number].
    + intros Heq. subst speed. rewrite Heq. unfold time.Sub.
      rewrite Z.sub_diag. by apply speedMbps_zero_elapsed.
  - destruct (decide (session_id r = "")) as [Hemp|Hne].
    { intros _. unfold DownloadData. by rewrite decide_True. }
    destruct (sessions (handler w) !! session_id r) as [sess|] eqn:Hsess.
    + intros [?|[?|(sess' & [= <-] & err & Hopen)]]; [done..|].
      rewrite (DownloadData_present e r w sess) by done. by rewrite Hopen.
    + intros _. unfold DownloadData. by rewrite decide_False, Hsess.
Qed.

(** On the sample world, with a request that net/http answers 304 and clock
    readings that coincide: the session, which has an allowed size, is in the
    store and its artifact can be opened, and [+Inf], not a NaN, is
    written. *)
Lemma DownloadData_speed_write_witness :
  let e := Sample.instant in
  let r := Sample.revalidate "u1" in
  let out := DownloadData e r Sample.world in
  let speed :=
    ((Float64.of_int64 (FileSize Sample.sess) * 8)
     / (time.Seconds (time.Sub (endTime e) (startTime e)) * 1024 * 1024))%float in
  (sessions (handler Sample.world) !! session_id r = Some Sample.sess
   ∧ os.Open (disk Sample.world) (FilePath Sample.sess) = None
   ∧ allowedSizes !! 5 = Some (FileSize Sample.sess))
  ∧ sessions (handler out.1)
    = <[session_id r := setSpeed speed Sample.sess]> (sessions (handler Sample.world))
  ∧ is_nan speed = false
  ∧ speed = infinity.
Proof.
  intros e r out speed.
  assert (session_id r ≠ "") as Hne by discriminate.
  destruct (proj1 (DownloadData_speed_write e r Sample.world) Sample.sess
              Hne eq_refl eq_refl) as [Hwritten Hnumber].
  destruct (Hnumber (ex_intro _ 5 eq_refl)) as [Hnan Hinf].
  split; [repeat split|]. split; [exact Hwritten|].
  split; [exact Hnan|exact (Hinf eq_refl)].
Defined.

(** A transfer that net/http answers 304 (the client revalidates a copy with
    [If-None-Match]) measures and stores a speed like any other: 40 Mbps for
    the 5 MiB sample session and clock readings one second apart. *)
Example DownloadData_not_modified :
  let out := DownloadData Sample.oneSecond (Sample.revalidate "u1") Sample.world in
  StatusCode out.2 = 304
  ∧ Written out.2 = Nothing
  ∧ sessions (handler out.1) !! "u1" = Some (setSpeed 40 Sample.sess).
Proof. repeat split. Qed.

(** A transfer of the 5 MiB sample session that takes one second is stored as
    40 Mbps; a transfer of a session whose artifact is missing stores
    nothing. *)
Example DownloadData_one_second :
  sessions (handler (DownloadData Sample.oneSecond (Sample.query "u1") Sample.world).1)
    !! "u1" = Some (setSpeed 40 Sample.sess)
  ∧ DownloadData Sample.oneSecond (Sample.query "u1") Sample.orphan
    = (Printf (LogOpenError (PathError OpOpen Sample.path)) Sample.orphan,
       http.Error "Internal Server Error" 500).
Proof. split; reflexivity. Qed.

(** ** The whole round trip *)

(** The world after a successful verification. *)
Lemma VerifyDownload_ok_world (r : Request DownloadVerifyRequest) (w : World)
    (req : DownloadVerifyRequest) (sess : Session) :
  Body r = Some req →
  sessions (handler w) !! SessionID req = Some sess →
  ComputedHash req = ExpectedHash sess →
  (os.Remove (disk w) (FilePath sess)).2 = None →
  (VerifyDownload r w).1
  = mkWorld
      (mkHandler (delete (SessionID req) (sessions (handler w)))
                 (lastAccessMap (handler w)))
      (mkFS (delete (FilePath sess) (files (disk w))) (fault (disk w))
            (journal (disk w) ++ [EvRemove (FilePath sess)])%list)
      (logged w).
Proof.
  intros Hbody Hsess Hhash Hrm.
  destruct (Remove_ok _ _ Hrm) as (_ & _ & Hfs).
  unfold VerifyDownload. rewrite Hbody, Hsess. simpl.
  rewrite decide_True by done.
  destruct (os.Remove (disk w) (FilePath sess)) as [fs' [err|]]; simplify_eq/=.
  done.
Qed.

(** C1 (what the code does instead), from the initiation on. A session is
    created by an admitted, valid initiation without I/O errors, transferred
    in full, looked up, verified with the digest the initiation returned, and
    looked up again. The transfer delivers the artifact, the first lookup
    answers with the speed computed by the transfer, the verification answers
    [success] and the artifact is gone; but the session entry is gone with it,
    and the second lookup answers 404 "Invalid session_id" where the
    specification and the README promise the measured speed. *)
Theorem roundtrip_forgets_speed (e : InitEnv) (te : TransferEnv)
    (r : Request DownloadInitRequest) (w : World) (req : DownloadInitRequest)
    (size : Z) :
  Body r = Some req →
  allowedSizes !! SizeMB req = Some size →
  (CheckRateLimit (nowSince e) (nowStamp e) r w).2 = true →
  newUUID e ≠ "" →
  let path := "tmpdata/" ++ newUUID e ++ ".bin" in
  (∀ op, fault (disk w) op path = false) →
  let init := InitDownload e r w in
  let q : Request unit := mkRequest "" "" (newUUID e) None in
  let transfer := DownloadData te q init.1 in
  let speed :=
    speedMbps size (time.Seconds (time.Sub (endTime te) (startTime te))) in
  ∃ data hash,
    init.2 = http.JSON (InitJSON (mkInitResponse (newUUID e) size "sha256" hash))
    ∧ hash = hex.EncodeToString (sha256.Sum data)
    ∧ transfer.2
      = mkResponse http.StatusOK
          [("Cache-Control", "no-cache, no-store, must-revalidate")] (Content data)
    ∧ (GetSpeed q transfer.1).2
      = http.JSON (encodeSpeed (mkSpeedResponse (newUUID e) speed))
    ∧ let verify :=
        VerifyDownload
          (mkRequest "" "" "" (Some (mkVerifyRequest (newUUID e) hash))) transfer.1 in
      verify.2 = http.JSON (VerifyJSON (mkVerifyResponse "success"))
      ∧ files (disk verify.1) !! path = None
      ∧ (DownloadData te q verify.1).2
        = http.Error "Invalid session_id" http.StatusNotFound
      ∧ (GetSpeed q verify.1).2
        = http.Error "Invalid session_id" http.StatusNotFound.
Proof.
  intros Hbody Hsize Hadmit Hne path Hfault init q transfer speed.
  destruct (InitDownload_ok e r w req size Hbody Hsize Hadmit (λ op _, Hfault op))
    as (chunks & Hinit & _ & _).
  subst transfer init. rewrite Hinit. clear Hinit. cbn [fst snd].
  set (data := randSource e (time.UnixNano (nowSeed e)) <$> seqZ 0 size).
  set (hash := hex.EncodeToString (sha256.Sum data)).
  set (sess := mkSession (filepath.Join "tmpdata" (newUUID e ++ ".bin")) hash "sha256"
                 size (nowCreated e) 0).
  set (w1 := mkWorld _ _ _).
  assert (sessions (handler w1) !! session_id q = Some sess) as Hsess
    by apply lookup_insert_eq.
  assert (os.Open (disk w1) (FilePath sess) = None) as Hopen.
  { unfold os.Open. simpl. rewrite Hfault. by rewrite lookup_insert_eq. }
  exists data, hash. split; [done|]. split; [done|].
  rewrite (DownloadData_present te q w1 sess Hne Hsess), Hopen. simpl.
  split.
  { unfold ServeContent, os.ReadAll. simpl. rewrite Hfault.
    by rewrite lookup_insert_eq. }
  set (w2 := Printf _ _).
  assert (sessions (handler w2) !! newUUID e = Some (setSpeed speed sess)) as Hsess2
    by apply lookup_insert_eq.
  assert ((os.Remove (disk w2) (FilePath sess)).2 = None) as Hrm.
  { unfold os.Remove. simpl. rewrite Hfault. by rewrite lookup_insert_eq. }
  destruct (GetSpeed_after_verify
              (mkRequest "" "" "" (Some (mkVerifyRequest (newUUID e) hash))) q w2
              (mkVerifyRequest (newUUID e) hash) (setSpeed speed sess)
              eq_refl Hsess2 eq_refl Hrm eq_refl Hne) as (Hbefore & Hverify & Hafter).
  split; [exact Hbefore|]. split; [exact Hverify|].
  pose proof (VerifyDownload_ok_world
                (mkRequest "" "" "" (Some (mkVerifyRequest (newUUID e) hash))) w2
                (mkVerifyRequest (newUUID e) hash) (setSpeed speed sess)
                eq_refl Hsess2 eq_refl Hrm) as Hworld.
  split; [|split; [|exact Hafter]].
  - rewrite Hworld. simpl. apply lookup_delete_eq.
  - unfold DownloadData. rewrite decide_False by done.
    rewrite Hworld. simpl. by rewrite lookup_delete_eq.
Qed.

Lemma roundtrip_forgets_speed_witness :
  let e := SampleInit.env in
  let te := Sample.oneSecond in
  let r := Sample.init 5 in
  let w := Sample.empty in
  let path := "tmpdata/" ++ newUUID e ++ ".bin" in
  let init := InitDownload e r w in
  let q : Request unit := mkRequest "" "" (newUUID e) None in
  let transfer := DownloadData te q init.1 in
  let speed :=
    speedMbps 5242880 (time.Seconds (time.Sub (endTime te) (startTime te))) in
  (allowedSizes !! 5 = Some 5242880
   ∧ (CheckRateLimit (nowSince e) (nowStamp e) r w).2 = true
   ∧ speed = 40%float)
  ∧ ∃ data hash,
      init.2 = http.JSON (InitJSON (mkInitResponse (newUUID e) 5242880 "sha256" hash))
      ∧ hash = hex.EncodeToString (sha256.Sum data)
      ∧ transfer.2
        = mkResponse http.StatusOK
            [("Cache-Control", "no-cache, no-store, must-revalidate")] (Content data)
      ∧ (GetSpeed q transfer.1).2
        = http.JSON (encodeSpeed (mkSpeedResponse (newUUID e) speed))
      ∧ let verify :=
          VerifyDownload
            (mkRequest "" "" "" (Some (mkVerifyRequest (newUUID e) hash))) transfer.1 in
        verify.2 = http.JSON (VerifyJSON (mkVerifyResponse "success"))
        ∧ files (disk verify.1) !! path = None
        ∧ (DownloadData te q verify.1).2
          = http.Error "Invalid session_id" http.StatusNotFound
        ∧ (GetSpeed q verify.1).2
          = http.Error "Invalid session_id" http.StatusNotFound.
Proof.
  intros e te r w path init q transfer speed.
  split; [repeat split|].
  assert (newUUID e ≠ "") as Hne by (simpl; discriminate).
  exact (roundtrip_forgets_speed e te r w (mkInitRequest 5) 5242880
           eq_refl eq_refl eq_refl Hne (λ _, eq_refl)).
Defined.

(** ** The reaper *)

(** The effect of one visit of the sweep, field by field. *)
Lemma reapOne_sessions now w id sess :
  sessions (handler (reapOne now w (id, sess)))
  = if decide (time.Sub now (CreatedAt sess) > time.Hour)
    then delete id (sessions (handler w)) else sessions (handler w).
Proof.
  unfold reapOne. simpl. case_decide; [|done].
  by destruct (os.Remove _ _) as [? [?|]].
Qed.

Lemma reapOne_lastAccessMap now w entry :
  lastAccessMap (handler (reapOne now w entry)) = lastAccessMap (handler w).
Proof.
  unfold reapOne. case_decide; [|done].
  by destruct (os.Remove _ _) as [? [?|]].
Qed.

Lemma reapOne_disk now w id sess :
  disk (reapOne now w (id, sess))
  = if decide (time.Sub now (CreatedAt sess) > time.Hour)
    then (os.Remove (disk w) (FilePath sess)).1 else disk w.
Proof.
  unfold reapOne. simpl. case_decide; [|done].
  destruct (os.Remove (disk w) (FilePath sess)) as [fs' [err|]] eqn:Hrm; simpl; [|done].
  pose proof (Remove_error (disk w) (FilePath sess) err) as Herr.
  rewrite Hrm in Herr. simpl in Herr. by destruct Herr as [-> _].
Qed.

Lemma reapOne_logged now w id sess :
  logged (reapOne now w (id, sess))
  = if decide (time.Sub now (CreatedAt sess) > time.Hour)
    then (logged w ++ LogCleaning id ::
            match (os.Remove (disk w) (FilePath sess)).2 with
            | Some err => [LogDeleteFailed (FilePath sess) err]
            | None => []
            end)%list
    else logged w.
Proof.
  unfold reapOne. simpl. case_decide; [|done].
  destruct (os.Remove (disk w) (FilePath sess)) as [fs' [err|]]; simpl; [|done].
  by rewrite <-(assoc_L (++)).
Qed.

(** [os.Remove] never adds a file, removes at most the file it is asked to
    remove, and leaves the faults as they are. *)
Lemma Remove_files fs path q :
  files (os.Remove fs path).1 !! q
  = if decide (q = path ∧ fault fs OpRemove path = false) then None
    else files fs !! q.
Proof.
  unfold os.Remove. destruct (fault fs OpRemove path) eqn:Hf; simpl.
  - rewrite decide_False; [done|]. by intros [_ ?].
  - destruct (files fs !! path) eqn:Hp; simpl.
    + case_decide as Hq.
      * destruct Hq as [-> _]. apply lookup_delete_eq.
      * apply lookup_delete_ne. naive_solver.
    + case_decide as Hq; [|done]. by destruct Hq as [-> _].
Qed.

Lemma Remove_fault fs path : fault (os.Remove fs path).1 = fault fs.
Proof.
  unfold os.Remove. destruct (fault fs OpRemove path); [done|].
  by destruct (files fs !! path).
Qed.

Section Reap.
Variable now : Z.
Implicit Types (w : World) (order : list (string * Session)).

Lemma reap_cons w entry order :
  reap now (entry :: order) w = reap now order (reapOne now w entry).
Proof. reflexivity. Qed.

Lemma reap_lastAccessMap order w :
  lastAccessMap (handler (reap now order w)) = lastAccessMap (handler w).
Proof.
  revert w. induction order as [|entry order IH]; intros w; [done|].
  by rewrite reap_cons, IH, reapOne_lastAccessMap.
Qed.

Lemma reap_fault order w : fault (disk (reap now order w)) = fault (disk w).
Proof.
  revert w. induction order as [|[id sess] order IH]; intros w; [done|].
  rewrite reap_cons, IH, reapOne_disk. case_decide; [apply Remove_fault|done].
Qed.

(** The sweep only deletes: an absent session stays absent, an absent file
    stays absent, and a logged line stays logged. *)
Lemma reap_sessions_absent order w id :
  sessions (handler w) !! id = None →
  sessions (handler (reap now order w)) !! id = None.
Proof.
  revert w. induction order as [|[id' sess] order IH]; intros w Hnone; [done|].
  rewrite reap_cons. apply IH. rewrite reapOne_sessions.
  case_decide; [|done]. rewrite lookup_delete. by case_decide.
Qed.

Lemma reap_files_absent order w path :
  files (disk w) !! path = None →
  files (disk (reap now order w)) !! path = None.
Proof.
  revert w. induction order as [|[id sess] order IH]; intros w Hnone; [done|].
  rewrite reap_cons. apply IH. rewrite reapOne_disk.
  case_decide; [|done]. rewrite Remove_files. by case_decide.
Qed.

Lemma reap_logged_mono order w line :
  line ∈ logged w → line ∈ logged (reap now order w).
Proof.
  revert w. induction order as [|[id sess] order IH]; intros w Hin; [done|].
  rewrite reap_cons. apply IH. rewrite reapOne_logged.
  case_decide; [|done]. apply elem_of_app. by left.
Qed.

(** A visited session that is older than an hour is deleted from the map,
    whatever [os.Remove] said. *)
Lemma reap_sessions_expired order w id sess :
  (id, sess) ∈ order → expired now sess →
  sessions (handler (reap now order w)) !! id = None.
Proof.
  revert w. induction order as [|[id' sess'] order IH]; intros w Hin Hold.
  - by apply elem_of_nil in Hin.
  - rewrite reap_cons. apply elem_of_cons in Hin as [[= <- <-]|Hin]; [|by apply IH].
    apply reap_sessions_absent. rewrite reapOne_sessions, decide_True by done.
    apply lookup_delete_eq.
Qed.

Lemma reap_sessions_kept order w id :
  (∀ sess, (id, sess) ∈ order → ¬ expired now sess) →
  sessions (handler (reap now order w)) !! id = sessions (handler w) !! id.
Proof.
  revert w. induction order as [|[id' sess'] order IH]; intros w Hyoung; [done|].
  rewrite reap_cons, IH.
  - rewrite reapOne_sessions. case_decide as Hold; [|done].
    apply lookup_delete_ne. intros ->. apply (Hyoung sess'); [left|done].
  - intros sess Hin. apply Hyoung. by right.
Qed.

Lemma reap_files_removed order w id sess :
  (id, sess) ∈ order → expired now sess →
  fault (disk w) OpRemove (FilePath sess) = false →
  files (disk (reap now order w)) !! FilePath sess = None.
Proof.
  revert w. induction order as [|[id' sess'] order IH]; intros w Hin Hold Hfault.
  - by apply elem_of_nil in Hin.
  - rewrite reap_cons. apply elem_of_cons in Hin as [[= <- <-]|Hin].
    + apply reap_files_absent. rewrite reapOne_disk, decide_True by done.
      rewrite Remove_files. by rewrite decide_True.
    + apply IH; [done..|]. rewrite reapOne_disk.
      case_decide; [by rewrite Remove_fault|done].
Qed.

Lemma reap_files_kept order w path :
  (∀ id sess, (id, sess) ∈ order → expired now sess → FilePath sess ≠ path) →
  files (disk (reap now order w)) !! path = files (disk w) !! path.
Proof.
  revert w. induction order as [|[id' sess'] order IH]; intros w Hother; [done|].
  rewrite reap_cons, IH.
  - rewrite reapOne_disk. case_decide as Hold; [|done].
    rewrite Remove_files. rewrite decide_False; [done|].
    intros [-> _]. by apply (Hother id' sess'); [left|..].
  - intros id sess Hin. apply (Hother id sess). by right.
Qed.

(** A failed deletion is logged. *)
Lemma reap_logged_failure order w id sess :
  (id, sess) ∈ order → expired now sess →
  fault (disk w) OpRemove (FilePath sess) = true
  ∨ files (disk w) !! FilePath sess = None →
  LogDeleteFailed (FilePath sess) (PathError OpRemove (FilePath sess))
  ∈ logged (reap now order w).
Proof.
  revert w. induction order as [|[id' sess'] order IH]; intros w Hin Hold Hfail.
  - by apply elem_of_nil in Hin.
  - rewrite reap_cons. apply elem_of_cons in Hin as [[= <- <-]|Hin].
    + apply reap_logged_mono. rewrite reapOne_logged, decide_True by done.
      apply elem_of_app. right. right.
      assert ((os.Remove (disk w) (FilePath sess)).2
              = Some (PathError OpRemove (FilePath sess))) as ->; [|by left].
      unfold os.Remove. destruct Hfail as [->| ->]; [done|].
      by destruct (fault (disk w) OpRemove (FilePath sess)).
    + apply IH; [done..|]. rewrite reapOne_disk. case_decide; [|done].
      rewrite Remove_fault, Remove_files. destruct Hfail as [?| ->]; [by left|].
      right. by case_decide.
Qed.
End Reap.

(** C4 fails as stated. From the initial world on a disk that refuses to
    remove files, a 5 MiB session is initiated; at the first tick more than an
    hour later the deletion of its artifact fails, the failure is logged, and
    the session entry is deleted all the same: the file stays behind without a
    session. *)
Lemma failed_deletion_still_reaps :
  let id := newUUID SampleInit.env in
  let path := "tmpdata/" ++ id ++ ".bin" in
  let w1 := (InitDownload SampleInit.env (Sample.init 5) Sample.emptyStuck).1 in
  let now := nowCreated SampleInit.env + time.Hour + 1 in
  let swept := cleanupTick now w1 in
  is_Some (sessions (handler w1) !! id)
  ∧ is_Some (files (disk w1) !! path)
  ∧ (os.Remove (disk w1) path).2 = Some (PathError OpRemove path)
  ∧ sessions (handler swept) !! id = None
  ∧ files (disk swept) !! path = files (disk w1) !! path
  ∧ logged swept
    = (logged w1
       ++ [LogCleaning id; LogDeleteFailed path (PathError OpRemove path)])%list.
Proof.
  intros id path w1 now swept.
  assert (∀ op, op ∈ [OpCreate; OpWrite; OpOpen; OpRead] →
                fault (disk Sample.emptyStuck) op path = false) as Hfault.
  { intros op Hin. destruct op; try reflexivity.
    repeat (apply elem_of_cons in Hin as [Heq|Hin]; [discriminate Heq|]).
    by apply elem_of_nil in Hin. }
  destruct (InitDownload_ok SampleInit.env (Sample.init 5) Sample.emptyStuck
              (mkInitRequest 5) 5242880 eq_refl eq_refl eq_refl Hfault)
    as (chunks & Hinit & _).
  subst swept w1. rewrite Hinit. repeat split; by eexists.
Qed.

(** C4 (amended). In every sweep, in whatever order the map is ranged over,
    every session older than one hour is removed from the store whether or
    not its artifact could be deleted; the artifact is gone afterwards unless
    the disk refused the removal, and a deletion that fails (refused, or file
    already missing) is logged and stops nothing: all other expired sessions
    are reaped in the same sweep. Sessions that are not older than one hour
    are kept as they are, files that belong to no expired session are
    untouched, no session or file appears, and the rate limiter's map is
    unchanged. [cleanupTick] is the sweep in the order of [map_to_list]. *)
Theorem reap_sweep (now : Z) (w : World) (order : list (string * Session)) :
  order ≡ₚ map_to_list (sessions (handler w)) →
  let w' := reap now order w in
  (∀ id sess,
     sessions (handler w) !! id = Some sess →
     time.Sub now (CreatedAt sess) > time.Hour →
     sessions (handler w') !! id = None
     ∧ (fault (disk w) OpRemove (FilePath sess) = false →
        files (disk w') !! FilePath sess = None)
     ∧ (fault (disk w) OpRemove (FilePath sess) = true
        ∨ files (disk w) !! FilePath sess = None →
        LogDeleteFailed (FilePath sess) (PathError OpRemove (FilePath sess))
        ∈ logged w'))
  ∧ (∀ id sess,
       sessions (handler w) !! id = Some sess →
       ¬ time.Sub now (CreatedAt sess) > time.Hour →
       sessions (handler w') !! id = Some sess)
  ∧ (∀ id, sessions (handler w) !! id = None → sessions (handler w') !! id = None)
  ∧ (∀ path,
       (∀ id sess, sessions (handler w) !! id = Some sess →
                   time.Sub now (CreatedAt sess) > time.Hour →
                   FilePath sess ≠ path) →
       files (disk w') !! path = files (disk w) !! path)
  ∧ (∀ path, files (disk w) !! path = None → files (disk w') !! path = None)
  ∧ lastAccessMap (handler w') = lastAccessMap (handler w).
Proof.
  intros Hperm w'. subst w'.
  assert (∀ id sess, (id, sess) ∈ order ↔ sessions (handler w) !! id = Some sess)
    as Hmem by (intros; by rewrite Hperm, elem_of_map_to_list).
  split_and!.
  - intros id sess Hsess%Hmem Hold.
    split_and!; eauto using reap_sessions_expired, reap_files_removed, reap_logged_failure.
  - intros id sess Hsess Hyoung. rewrite reap_sessions_kept; [done|].
    intros sess' Hin%Hmem. by simplify_eq.
  - intros id. apply reap_sessions_absent.
  - intros path Hother. apply reap_files_kept.
    intros id sess Hin%Hmem. by apply (Hother id sess).
  - intros path. apply reap_files_absent.
  - apply reap_lastAccessMap.
Qed.

Lemma reap_sweep_witness :
  let now := 50 + time.Hour + 1 in
  let swept := cleanupTick now Sample.stuck in
  (sessions (handler Sample.stuck) !! "u1" = Some Sample.sess
   ∧ time.Sub now (CreatedAt Sample.sess) > time.Hour
   ∧ fault (disk Sample.stuck) OpRemove Sample.path = true)
  ∧ sessions (handler swept) !! "u1" = None
  ∧ LogDeleteFailed Sample.path (PathError OpRemove Sample.path) ∈ logged swept
  ∧ lastAccessMap (handler swept) = lastAccessMap (handler Sample.stuck).
Proof.
  intros now swept.
  assert (time.Sub now (CreatedAt Sample.sess) > time.Hour) as Hold by reflexivity.
  destruct (reap_sweep now Sample.stuck (map_to_list (sessions (handler Sample.stuck)))
              (reflexivity _)) as (Hexpired & _ & _ & _ & _ & Hseen).
  destruct (Hexpired "u1" Sample.sess eq_refl Hold) as (Hgone & _ & Hlog).
  split; [by repeat split|]. split; [exact Hgone|]. split; [|exact Hseen].
  apply Hlog. by left.
Defined.

(** * Further properties of the code *)

(** ** Strings *)

Lemma append_cons a (s t : string) : String a s ++ t = String a (s ++ t).
Proof. reflexivity. Qed.

Lemma append_nil_l (t : string) : "" ++ t = t.
Proof. reflexivity. Qed.

Lemma append_nil_r (s : string) : s ++ "" = s.
Proof. induction s as [|a s IH]; [done|]. by rewrite append_cons, IH. Qed.

Lemma append_assoc (a b c : string) : (a ++ b) ++ c = a ++ b ++ c.
Proof. induction a as [|x a IH]; [done|]. by rewrite !append_cons, IH. Qed.


Lemma rev_app_spec (s1 s2 : string) : String.rev_app s1 s2 = String.rev s1 ++ s2.
Proof.
  unfold String.rev. revert s2. induction s1 as [|a s1 IH]; intros s2; simpl; [done|].
  rewrite (IH (String a s2)), (IH (String a "")), append_assoc. done.
Qed.

Lemma rev_cons a (s : string) : String.rev (String a s) = String.rev s ++ String a "".
Proof. unfold String.rev at 1. simpl. apply rev_app_spec. Qed.

Lemma rev_append (a b : string) : String.rev (a ++ b) = String.rev b ++ String.rev a.
Proof.
  induction a as [|x a IH].
  - by rewrite append_nil_l, append_nil_r.
  - by rewrite append_cons, !rev_cons, IH, append_assoc.
Qed.

Lemma rev_involutive (s : string) : String.rev (String.rev s) = s.
Proof.
  induction s as [|a s IH]; [done|]. by rewrite rev_cons, rev_append, IH.
Qed.




Lemma LastIndex_none (s : string) sep : sep ∉ chars s → strings.LastIndex s sep = None.
Proof.
  induction s as [|x s IH]; simpl; intros Hsep; [done|].
  rewrite IH by (intros Hin; apply Hsep; by right).
  rewrite decide_False; [done|]. intros ->. apply Hsep. left.
Qed.

Lemma LastIndex_append (host port : string) sep :
  sep ∉ chars port →
  strings.LastIndex (host ++ String sep port) sep = Some (String.length host).
Proof.
  intros Hsep. induction host as [|x host IH].
  - rewrite append_nil_l. simpl. by rewrite LastIndex_none, decide_True.
  - rewrite append_cons. simpl. by rewrite IH.
Qed.

Lemma prefix_append (a b : string) : strings.prefix (String.length a) (a ++ b) = a.
Proof.
  induction a as [|x a IH]; [by destruct b|]. rewrite append_cons. simpl. by rewrite IH.
Qed.

(** ** The client identity *)

Lemma asciiSpace_low c : strings.asciiSpace c = true → (N_of_ascii c < 128)%N.
Proof.
  unfold strings.asciiSpace. simpl.
  destruct (N.leb_spec 9 (N_of_ascii c)), (N.leb_spec (N_of_ascii c) 13),
    (N.eqb_spec (N_of_ascii c) 32); simpl; (done || lia).
Qed.









(** X1. Without an [X-Forwarded-For] header the client identity is the peer
    address with its port stripped: for [RemoteAddr = host:port], where the
    port holds no colon, it is [host] (also when [host] itself holds colons,
    as a bracketed IPv6 address does); an address without any colon is
    returned as it is. *)
Theorem getClientIP_strips_port {B} (r : Request B) (host port : string) :
  XForwardedFor r = "" →
  ":"%char ∉ chars port →
  (RemoteAddr r = host ++ ":" ++ port → getClientIP r = host)
  ∧ (RemoteAddr r = port → getClientIP r = port).
Proof.
  intros Hfwd Hport. unfold getClientIP. rewrite Hfwd, decide_False by (by intros ?).
  split; intros ->.
  - change (":" ++ port) with (String ":"%char port).
    by rewrite LastIndex_append, prefix_append.
  - by rewrite LastIndex_none.
Qed.

Lemma getClientIP_strips_port_witness :
  getClientIP (mkRequest (B := unit) "" "[2001:db8::7]:4711" "" None) = "[2001:db8::7]"
  ∧ getClientIP (mkRequest (B := unit) "" "4711" "" None) = "4711".
Proof.
  assert (":"%char ∉ chars "4711") as Hport.
  { intros Hin. repeat (apply elem_of_cons in Hin as [Heq|Hin]; [discriminate Heq|]).
    by apply elem_of_nil in Hin. }
  split.
  - exact (proj1 (getClientIP_strips_port
                    (mkRequest (B := unit) "" "[2001:db8::7]:4711" "" None)
                    "[2001:db8::7]" "4711" eq_refl Hport) eq_refl).
  - exact (proj2 (getClientIP_strips_port (mkRequest (B := unit) "" "4711" "" None)
                    "" "4711" eq_refl Hport) eq_refl).
Defined.



(** ** Initiation: every outcome *)

(** [InitDownload] with the verdict of the rate limiter made explicit. *)
Lemma InitDownload_unfold (e : InitEnv) (r : Request DownloadInitRequest) (w : World) :
  InitDownload e r w =
  if (CheckRateLimit (nowSince e) (nowStamp e) r w).2 then
    let seen' := <[getClientIP r := nowStamp e]> (lastAccessMap (handler w)) in
    let w1 := Printf (LogAccessGranted (getClientIP r) seen') (setLastAccess seen' w) in
    match Body r with
    | None => (w1, http.Error "Bad request" http.StatusBadRequest)
    | Some req =>
        match allowedSizes !! SizeMB req with
        | None =>
            (w1, http.Error "Invalid size requested. Allowed values: 5,10,20,50,100"
                            http.StatusBadRequest)
        | Some size =>
            let filePath := filepath.Join "tmpdata" (newUUID e ++ ".bin") in
            match generateRandomFile e filePath size (disk w) with
            | (fs2, Some err) =>
                (Printf (LogGenerateError err) (setDisk fs2 w1),
                 http.Error "Internal Server Error" http.StatusInternalServerError)
            | (fs2, None) =>
                match computeFileHash fs2 filePath with
                | (_, Some err) =>
                    (Printf (LogHashError err) (setDisk fs2 w1),
                     http.Error "Internal Server Error" http.StatusInternalServerError)
                | (expectedHash, None) =>
                    (setSessions
                       (<[newUUID e :=
                            mkSession filePath expectedHash "sha256" size (nowCreated e) 0]>
                          (sessions (handler w)))
                       (setDisk fs2 w1),
                     http.JSON
                       (InitJSON (mkInitResponse (newUUID e) size "sha256" expectedHash)))
                end
            end
        end
    end
  else
    (Printf (LogRateLimited (getClientIP r)) w,
     http.Error "Rate limit exceeded. Try again later." http.StatusTooManyRequests).
Proof.
  unfold InitDownload. rewrite CheckRateLimit_result.
  by destruct (CheckRateLimit (nowSince e) (nowStamp e) r w).2.
Qed.

(** X3. A rate-limited initiation mutates nothing: [InitDownload] answers 429
    exactly when [CheckRateLimit] denies the client, and then the handler's
    two maps and the disk are as before; the only trace is one log line. *)
Theorem InitDownload_rate_limited (e : InitEnv) (r : Request DownloadInitRequest)
    (w : World) :
  let out := InitDownload e r w in
  (StatusCode out.2 = http.StatusTooManyRequests
   ↔ (CheckRateLimit (nowSince e) (nowStamp e) r w).2 = false)
  ∧ (StatusCode out.2 = http.StatusTooManyRequests →
     out.2 = http.Error "Rate limit exceeded. Try again later." 429
     ∧ handler out.1 = handler w
     ∧ disk out.1 = disk w
     ∧ logged out.1 = (logged w ++ [LogRateLimited (getClientIP r)])%list).
Proof.
  intros out. subst out. init_cases InitDownload_unfold e r w; (split; [by split|done]).
Qed.

(** What [computeFileHash] returns without an error is the digest of the file
    that is on the disk. *)
Lemma computeFileHash_success fs path hash :
  computeFileHash fs path = (hash, None) →
  fault fs OpOpen path = false ∧ fault fs OpRead path = false
  ∧ ∃ data, files fs !! path = Some data ∧ hash = hex.EncodeToString (sha256.Sum data).
Proof.
  unfold computeFileHash, os.Open, os.ReadAll.
  destruct (fault fs OpOpen path); [done|].
  destruct (files fs !! path) as [data|]; [|done].
  destruct (fault fs OpRead path); [done|]. intros [= <-]. eauto.
Qed.

(** X4. [InitDownload] answers 200, 400, 429 or 500, and it registers a
    session exactly when it answers 200: any other answer leaves the session
    map as it was, and a 200 adds (or replaces) the one entry of the new
    identifier, whose artifact is then on the disk and whose [ExpectedHash],
    the same as in the answer, is the SHA-256 digest of that file. *)
Theorem InitDownload_registers_on_success (e : InitEnv)
    (r : Request DownloadInitRequest) (w : World) :
  let out := InitDownload e r w in
  StatusCode out.2 ∈ [200; 400; 429; 500]
  ∧ (StatusCode out.2 ≠ 200 → sessions (handler out.1) = sessions (handler w))
  ∧ (StatusCode out.2 = 200 →
     ∃ sess data,
       sessions (handler out.1) = <[newUUID e := sess]> (sessions (handler w))
       ∧ out.2
         = http.JSON
             (InitJSON
                (mkInitResponse (newUUID e) (FileSize sess) (HashAlgorithm sess)
                   (ExpectedHash sess)))
       ∧ files (disk out.1) !! FilePath sess = Some data
       ∧ ExpectedHash sess = hex.EncodeToString (sha256.Sum data)
       ∧ DownloadSpeedMbps sess = 0%float).
Proof.
  intros out. subst out. init_cases InitDownload_unfold e r w; (split_and!; [set_solver|done|try done]).
  intros _.
  match goal with H : computeFileHash _ _ = _ |- _ =>
    apply computeFileHash_success in H as (_ & _ & data & Hfile & ->) end.
  by eexists _, data.
Qed.

(** [generateRandomFile] fails only on a fault: when the file cannot be
    created (the disk is then untouched), or when it cannot be written (the
    file is then left empty, since the first write already fails). *)
Lemma generateRandomFile_error (e : InitEnv) path size fs fs2 err :
  generateRandomFile e path size fs = (fs2, Some err) →
  (fault fs OpCreate path = true ∧ fs2 = fs)
  ∨ (fault fs OpCreate path = false ∧ fault fs OpWrite path = true ∧ 0 < size
     ∧ fs2 = mkFS (<[path := []]> (files fs)) (fault fs)
                  (journal fs ++ [EvCreate path])%list).
Proof.
  destruct (fault fs OpCreate path) eqn:Hcreate.
  { unfold generateRandomFile, os.Create. rewrite Hcreate. intros [= <- _]. auto. }
  destruct (fault fs OpWrite path) eqn:Hwrite.
  - unfold generateRandomFile, os.Create. rewrite Hcreate.
    rewrite writeLoop_equation_1. destruct (decide (0 < size)); simpl; [|done].
    unfold os.Write. simpl. rewrite Hwrite. simpl. intros [= <- _]. auto.
  - destruct (generateRandomFile_ok e path size fs Hcreate Hwrite) as (? & -> & _). done.
Qed.

Lemma generateRandomFile_success (e : InitEnv) path size fs fs2 :
  generateRandomFile e path size fs = (fs2, None) → 0 < size →
  fault fs OpCreate path = false ∧ fault fs OpWrite path = false
  ∧ fault fs2 = fault fs
  ∧ files fs2
    = <[path := randSource e (time.UnixNano (nowSeed e)) <$> seqZ 0 size]> (files fs).
Proof.
  intros Hgen Hsize.
  destruct (fault fs OpCreate path) eqn:Hcreate.
  { unfold generateRandomFile, os.Create in Hgen. by rewrite Hcreate in Hgen. }
  destruct (fault fs OpWrite path) eqn:Hwrite.
  - unfold generateRandomFile, os.Create in Hgen. rewrite Hcreate in Hgen.
    rewrite writeLoop_equation_1 in Hgen.
    destruct (decide (0 < size)); [|done]. simpl in Hgen.
    unfold os.Write in Hgen. simpl in Hgen. by rewrite Hwrite in Hgen.
  - destruct (generateRandomFile_ok e path size fs Hcreate Hwrite) as (? & Heq & _).
    rewrite Heq in Hgen. by injection Hgen as <-.
Qed.

Lemma allowedSizes_positive sel size : allowedSizes !! sel = Some size → 0 < size.
Proof.
  intros [Hin ->]%allowedSizes_lookup.
  repeat (apply elem_of_cons in Hin as [->|Hin]; [lia|]). by apply elem_of_nil in Hin.
Qed.



(** The rate limiter's entry after an initiation that was not refused. *)
Lemma InitDownload_stamps (e : InitEnv) (r : Request DownloadInitRequest) (w : World) :
  StatusCode (InitDownload e r w).2 ≠ http.StatusTooManyRequests →
  lastAccessMap (handler (InitDownload e r w).1)
  = <[getClientIP r := nowStamp e]> (lastAccessMap (handler w)).
Proof. init_cases InitDownload_unfold e r w; done. Qed.

(** X6. Every initiation that gets past the rate limiter counts against the
    client, whatever its outcome (200, 400 or 500): a further initiation by the
    same client identity whose clock reading is less than 10 seconds after the
    stored one is answered 429 and leaves the handler's maps and the disk
    untouched. *)
Theorem InitDownload_counts_every_attempt (e1 e2 : InitEnv)
    (r1 r2 : Request DownloadInitRequest) (w : World) :
  getClientIP r2 = getClientIP r1 →
  StatusCode (InitDownload e1 r1 w).2 ≠ http.StatusTooManyRequests →
  time.Since (nowSince e2) (nowStamp e1) < 10 * time.Second →
  let w1 := (InitDownload e1 r1 w).1 in
  let out := InitDownload e2 r2 w1 in
  out.2 = http.Error "Rate limit exceeded. Try again later." 429
  ∧ handler out.1 = handler w1
  ∧ disk out.1 = disk w1.
Proof.
  intros Hsame Hfirst Hsoon w1 out. subst out.
  assert ((CheckRateLimit (nowSince e2) (nowStamp e2) r2 w1).2 = false) as Hdeny.
  { rewrite CheckRateLimit_verdict. subst w1.
    rewrite (InitDownload_stamps e1 r1 w Hfirst), Hsame, lookup_insert_eq.
    apply bool_decide_eq_false_2. lia. }
  by rewrite (InitDownload_unfold e2 r2 w1), Hdeny.
Qed.

Lemma InitDownload_counts_every_attempt_witness :
  let w1 := (InitDownload SampleInit.env (Sample.init 7) Sample.empty).1 in
  let out := InitDownload SampleInit.later (Sample.init 5) w1 in
  StatusCode (InitDownload SampleInit.env (Sample.init 7) Sample.empty).2 = 400
  ∧ out.2 = http.Error "Rate limit exceeded. Try again later." 429
  ∧ handler out.1 = handler w1
  ∧ disk out.1 = disk w1.
Proof.
  intros w1 out. split; [reflexivity|].
  assert (StatusCode (InitDownload SampleInit.env (Sample.init 7) Sample.empty).2
          ≠ http.StatusTooManyRequests) as Hfirst by discriminate.
  exact (InitDownload_counts_every_attempt SampleInit.env SampleInit.later
           (Sample.init 7) (Sample.init 5) Sample.empty eq_refl Hfirst eq_refl).
Defined.

(** ** The server: what holds after any sequence of calls *)

Lemma append_inj_r (a b t : string) : a ++ t = b ++ t → a = b.
Proof.
  intros Heq. apply (f_equal String.rev) in Heq. rewrite !rev_append in Heq.
  apply (inj (String.app _)) in Heq. apply (f_equal String.rev) in Heq.
  by rewrite !rev_involutive in Heq.
Qed.

(** Distinct session identifiers have distinct artifact paths. *)
Lemma artifact_path_inj (a b : string) :
  filepath.Join "tmpdata" (a ++ ".bin") = filepath.Join "tmpdata" (b ++ ".bin") → a = b.
Proof.
  unfold filepath.Join. intros Heq.
  apply (inj (String.app _)) in Heq. apply (inj (String.app _)) in Heq.
  by apply append_inj_r in Heq.
Qed.

Lemma computeFileHash_failure fs path hash err :
  computeFileHash fs path = (hash, Some err) →
  fault fs OpOpen path = true ∨ fault fs OpRead path = true ∨ files fs !! path = None.
Proof.
  unfold computeFileHash, os.Open, os.ReadAll.
  destruct (fault fs OpOpen path); [auto|].
  destruct (files fs !! path); [|auto].
  destruct (fault fs OpRead path); [auto|done].
Qed.

Lemma backed_boot fs : backed (boot fs).
Proof.
  intros id sess Hsess. unfold boot, NewDownloadHandler in Hsess. simpl in Hsess.
  by rewrite lookup_empty in Hsess.
Qed.

(** Neither the rate limiter's map nor the log matters. *)
Lemma backed_same w w' :
  sessions (handler w') = sessions (handler w) → disk w' = disk w →
  backed w → backed w'.
Proof. intros Hs Hd Hw id sess. rewrite Hs, Hd. apply Hw. Qed.

(** Writing at a path that no session uses, or deleting nothing, keeps the
    sessions backed. *)
Lemma backed_other_path w w' path new :
  sessions (handler w') = sessions (handler w) →
  fault (disk w') = fault (disk w) →
  files (disk w') = <[path := new]> (files (disk w)) →
  (∃ op, op ∈ [OpWrite; OpOpen; OpRead] ∧ fault (disk w) op path = true) →
  backed w → backed w'.
Proof.
  intros Hs Hf Hfiles (op & Hop & Hfault) Hw id sess. rewrite Hs. intros Hsess.
  destruct (Hw id sess Hsess) as (Hpath & Halg & Hsize & Hok & data & Hdata & Hrest).
  rewrite Hf, Hfiles. split_and!; [done..|].
  exists data. rewrite lookup_insert_ne; [done|].
  intros Heq. specialize (Hok op Hop). rewrite <-Heq in Hok. congruence.
Qed.

Lemma backed_InitDownload e r w : backed w → backed (InitDownload e r w).1.
Proof.
  intros Hw. init_cases InitDownload_unfold e r w; try by (eapply backed_same; [..|exact Hw]).
  - (* the file could not be generated *)
    match goal with H : generateRandomFile _ _ _ _ = _ |- _ =>
      apply generateRandomFile_error in H as [[_ ->]|(_ & Hwrite & _ & ->)] end.
    + by eapply backed_same; [..|exact Hw].
    + eapply backed_other_path; [..|exact Hw]; [done|done|done|].
      exists OpWrite. split; [set_solver|done].
  - (* the file could not be hashed *)
    match goal with H : allowedSizes !! _ = Some _ |- _ =>
      pose proof (allowedSizes_positive _ _ H) as Hpos end.
    match goal with H : generateRandomFile _ _ _ _ = _ |- _ =>
      apply generateRandomFile_success in H as (_ & _ & Hfault & Hfiles); [|done] end.
    match goal with H : computeFileHash _ _ = _ |- _ =>
      apply computeFileHash_failure in H as Hfail end.
    eapply backed_other_path; [..|exact Hw]; [done|exact Hfault|exact Hfiles|].
    rewrite Hfault, Hfiles, lookup_insert_eq in Hfail.
    destruct Hfail as [?|[?|?]]; [exists OpOpen|exists OpRead|done]; (split; [set_solver|done]).
  - (* a session is registered *)
    match goal with H : allowedSizes !! _ = Some _ |- _ =>
      pose proof (allowedSizes_positive _ _ H) as Hpos; rename H into Hallowed end.
    match goal with H : generateRandomFile _ _ _ _ = _ |- _ =>
      apply generateRandomFile_success in H as (_ & Hwrite & Hfault & Hfiles); [|done] end.
    match goal with H : computeFileHash _ _ = _ |- _ =>
      apply computeFileHash_success in H as (Hopen & Hread & data & Hdata & ->) end.
    rewrite Hfault in Hopen, Hread.
    intros id sess. simpl. rewrite Hfault. intros Hsess.
    destruct (decide (id = newUUID e)) as [->|Hne].
    + rewrite lookup_insert_eq in Hsess. injection Hsess as <-. simpl.
      split_and!; [done|done|eauto| |].
      * intros op Hop. repeat (apply elem_of_cons in Hop as [->|Hop]; [done|]).
        by apply elem_of_nil in Hop.
      * exists data. split_and!; [done| |done].
        rewrite Hfiles, lookup_insert_eq in Hdata. injection Hdata as <-.
        rewrite length_fmap, length_seqZ. lia.
    + rewrite lookup_insert_ne in Hsess by done.
      destruct (Hw id sess Hsess) as (Hpath & Halg & Hsize & Hok & old & Hold & Hrest).
      split_and!; [done..|]. exists old. split; [|done].
      rewrite Hfiles, lookup_insert_ne; [done|].
      rewrite Hpath. intros Heq%artifact_path_inj. done.
Qed.

Lemma backed_DownloadData {B} e (r : Request B) w : backed w → backed (DownloadData e r w).1.
Proof.
  intros Hw. unfold DownloadData. case_decide; [done|].
  destruct (sessions (handler w) !! session_id r) as [sess|] eqn:Hsess; [|done].
  destruct (os.Open (disk w) (FilePath sess)); [done|].
  intros id sess'. simpl. intros Hlook.
  destruct (decide (id = session_id r)) as [->|Hne].
  - rewrite lookup_insert_eq in Hlook. injection Hlook as <-. apply (Hw _ _ Hsess).
  - rewrite lookup_insert_ne in Hlook by done. by apply Hw.
Qed.

Lemma backed_VerifyDownload r w : backed w → backed (VerifyDownload r w).1.
Proof.
  intros Hw. unfold VerifyDownload. destruct (Body r) as [req|]; [|done].
  destruct (sessions (handler w) !! SessionID req) as [sess|] eqn:Hsess; [|done].
  simpl. case_decide; [|done].
  destruct (os.Remove (disk w) (FilePath sess)) as [fs' [err|]] eqn:Hrm; [done|].
  pose proof (Remove_ok (disk w) (FilePath sess)) as Hok. rewrite Hrm in Hok.
  destruct (Hok eq_refl) as (_ & _ & Hfs). simpl in Hfs. subst fs'.
  intros id sess'. simpl. intros Hlook.
  apply lookup_delete_Some in Hlook as [Hne Hlook].
  destruct (Hw id sess' Hlook) as (Hpath & Halg & Hsize & Hfault & data & Hdata & Hrest).
  split_and!; [done..|]. exists data. split; [|done].
  rewrite lookup_delete_ne; [done|].
  destruct (Hw _ _ Hsess) as (Hpath0 & _). rewrite Hpath, Hpath0.
  intros Heq%artifact_path_inj. done.
Qed.

(** What is in the store after a sweep was there before and has not expired. *)
Lemma reap_survivor now order w id sess :
  (∀ i s, (i, s) ∈ order ↔ sessions (handler w) !! i = Some s) →
  sessions (handler (reap now order w)) !! id = Some sess →
  sessions (handler w) !! id = Some sess ∧ ¬ time.Sub now (CreatedAt sess) > time.Hour.
Proof.
  intros Hmem Hlook.
  destruct (sessions (handler w) !! id) as [s0|] eqn:Hs0.
  - destruct (decide (time.Sub now (CreatedAt s0) > time.Hour)) as [Hold|Hyoung].
    + rewrite (reap_sessions_expired now order w id s0) in Hlook; [done| |done].
      by apply Hmem.
    + rewrite reap_sessions_kept, Hs0 in Hlook.
      * by injection Hlook as <-.
      * intros s Hin%Hmem. by simplify_eq.
  - by rewrite reap_sessions_absent in Hlook.
Qed.

Lemma backed_cleanupTick now w : backed w → backed (cleanupTick now w).
Proof.
  intros Hw id sess Hlook. unfold cleanupTick in *.
  apply reap_survivor in Hlook as [Hsess Hyoung];
    [|intros; apply elem_of_map_to_list].
  destruct (Hw id sess Hsess) as (Hpath & Halg & Hsize & Hfault & data & Hdata & Hrest).
  rewrite reap_fault. split_and!; [done..|]. exists data. split; [|done].
  rewrite reap_files_kept; [done|].
  intros id' sess' Hin%elem_of_map_to_list Hold Heq.
  destruct (Hw id' sess' Hin) as (Hpath' & _).
  rewrite Hpath, Hpath' in Heq. apply artifact_path_inj in Heq as ->. by simplify_eq.
Qed.

Lemma backed_serve w c : backed w → backed (serve w c).
Proof.
  intros Hw. destruct c; simpl.
  - by apply backed_InitDownload.
  - by apply backed_DownloadData.
  - by apply backed_VerifyDownload.
  - unfold GetSpeed. case_decide; [done|]. by destruct (sessions (handler w) !! _).
  - by apply backed_cleanupTick.
Qed.

Lemma backed_run calls w : backed w → backed (run calls w).
Proof.
  revert w. induction calls as [|c calls IH]; intros w Hw; [done|].
  apply IH, backed_serve, Hw.
Qed.

(** X7. After any sequence of calls, starting from a freshly created handler
    on any disk, every session in the store is backed by its artifact: its
    path is [tmpdata/<id>.bin] for the key [id] it is stored under, its
    algorithm is [sha256], its size is one of the allowed sizes, and the file
    is on the disk with exactly that size and with the session's
    [ExpectedHash] as its SHA-256 digest. No session outlives its artifact. *)
Theorem run_sessions_backed (fs : FS) (calls : list Call) (id : string)
    (sess : Session) :
  let w := run calls (boot fs) in
  sessions (handler w) !! id = Some sess →
  FilePath sess = "tmpdata/" ++ id ++ ".bin"
  ∧ HashAlgorithm sess = "sha256"
  ∧ (∃ sel, allowedSizes !! sel = Some (FileSize sess))
  ∧ ∃ data,
      files (disk w) !! FilePath sess = Some data
      ∧ Z.of_nat (length data) = FileSize sess
      ∧ ExpectedHash sess = hex.EncodeToString (sha256.Sum data).
Proof.
  intros w Hsess.
  destruct (backed_run calls (boot fs) (backed_boot fs) id sess Hsess)
    as (Hpath & Halg & Hsize & _ & Hdata).
  done.
Qed.

(** The first session of the sample server. *)
Lemma sample_first_session :
  let e := SampleInit.env in
  let w := run [CallInit e (Sample.init 5)] (boot (mkFS ∅ Sample.noFault [])) in
  let data := randSource e (time.UnixNano (nowSeed e)) <$> seqZ 0 5242880 in
  sessions (handler w) !! newUUID e
  = Some (mkSession (filepath.Join "tmpdata" (newUUID e ++ ".bin"))
            (hex.EncodeToString (sha256.Sum data)) "sha256" 5242880 (nowCreated e) 0).
Proof.
  intros e w data.
  destruct (InitDownload_ok e (Sample.init 5) Sample.empty (mkInitRequest 5) 5242880
              eq_refl eq_refl eq_refl (λ _ _, eq_refl)) as (chunks & Hinit & _).
  change w with (InitDownload e (Sample.init 5) Sample.empty).1.
  rewrite Hinit. apply lookup_insert_eq.
Qed.

Lemma run_sessions_backed_witness :
  let e := SampleInit.env in
  let w := run [CallInit e (Sample.init 5)] (boot (mkFS ∅ Sample.noFault [])) in
  ∃ sess,
    sessions (handler w) !! newUUID e = Some sess
    ∧ FilePath sess = "tmpdata/" ++ newUUID e ++ ".bin"
    ∧ ∃ data,
        files (disk w) !! FilePath sess = Some data
        ∧ Z.of_nat (length data) = FileSize sess
        ∧ ExpectedHash sess = hex.EncodeToString (sha256.Sum data).
Proof.
  intros e w. eexists. split; [exact sample_first_session|].
  destruct (run_sessions_backed (mkFS ∅ Sample.noFault []) [CallInit e (Sample.init 5)]
              (newUUID e) _ sample_first_session) as (Hpath & _ & _ & Hdata).
  split; [exact Hpath|exact Hdata].
Defined.



(** X9. After any sequence of calls, a verification with the session's own
    digest can only fail on the removal itself: it answers [success] (and then
    the session and the artifact are gone) exactly when the disk does not
    refuse to remove the artifact, and 500 otherwise. The artifact is never
    found missing. *)
Theorem run_verify_succeeds (fs : FS) (calls : list Call)
    (r : Request DownloadVerifyRequest) (req : DownloadVerifyRequest)
    (sess : Session) :
  let w := run calls (boot fs) in
  Body r = Some req →
  sessions (handler w) !! SessionID req = Some sess →
  ComputedHash req = ExpectedHash sess →
  let out := VerifyDownload r w in
  (fault (disk w) OpRemove (FilePath sess) = false →
     out.2 = http.JSON (VerifyJSON (mkVerifyResponse "success"))
     ∧ sessions (handler out.1) !! SessionID req = None
     ∧ files (disk out.1) !! FilePath sess = None)
  ∧ (fault (disk w) OpRemove (FilePath sess) = true →
     out.2 = http.Error "File removal failed" 500
     ∧ sessions (handler out.1) !! SessionID req = Some sess
     ∧ files (disk out.1) !! FilePath sess = files (disk w) !! FilePath sess).
Proof.
  intros w Hbody Hsess Hhash out. subst out w.
  destruct (backed_run calls (boot fs) (backed_boot fs) _ sess Hsess)
    as (_ & _ & _ & _ & data & Hdata & _).
  unfold VerifyDownload. rewrite Hbody, Hsess. simpl. rewrite decide_True by done.
  unfold os.Remove. rewrite Hdata.
  destruct (fault _ OpRemove (FilePath sess)); simpl.
  - split; [done|]. intros _. by rewrite Hsess.
  - split; [|done]. intros _. by rewrite !lookup_delete_eq.
Qed.

Lemma run_verify_succeeds_witness :
  let e := SampleInit.env in
  let w := run [CallInit e (Sample.init 5)] (boot (mkFS ∅ Sample.noFault [])) in
  let data := randSource e (time.UnixNano (nowSeed e)) <$> seqZ 0 5242880 in
  let r := Sample.verify (newUUID e) (hex.EncodeToString (sha256.Sum data)) in
  (VerifyDownload r w).2 = http.JSON (VerifyJSON (mkVerifyResponse "success"))
  ∧ sessions (handler (VerifyDownload r w).1) !! newUUID e = None.
Proof.
  intros e w data r.
  destruct (proj1 (run_verify_succeeds (mkFS ∅ Sample.noFault [])
                     [CallInit e (Sample.init 5)] r
                     (mkVerifyRequest (newUUID e) (hex.EncodeToString (sha256.Sum data)))
                     _ eq_refl sample_first_session eq_refl) eq_refl)
    as (Hok & Hgone & _).
  split; [exact Hok|exact Hgone].
Defined.

(** ** Speed lookups *)

(** After any number of transfers of a session whose artifact can be opened,
    the entry is the original one with some speed, and the disk is as
    before. *)
Lemma transfers_frame {B} (es : list TransferEnv) (r : Request B) (w : World) sess :
  sessions (handler w) !! session_id r = Some sess →
  let w' := foldl (λ w0 e, (DownloadData e r w0).1) w es in
  (∃ v, sessions (handler w') !! session_id r = Some (setSpeed v sess))
  ∧ disk w' = disk w.
Proof.
  revert w sess. induction es as [|e es IH]; intros w sess Hsess; simpl.
  - split; [|done]. exists (DownloadSpeedMbps sess). by destruct sess.
  - destruct (DownloadData_frame e r w sess Hsess) as ((v & Hv) & _ & _ & Hdisk).
    destruct (IH _ _ Hv) as ((v' & Hv') & Hdisk').
    split; [by exists v'|]. by rewrite Hdisk'.
Qed.

(** X10. The last transfer wins. After any number of earlier transfers of a
    session whose artifact can be opened, one more transfer followed by a
    speed lookup answers with the speed computed from the session's size and
    the clock readings of that last transfer alone; earlier measurements leave
    no trace. *)
Theorem GetSpeed_reports_last_transfer {B} (es : list TransferEnv) (e : TransferEnv)
    (r : Request B) (w : World) (sess : Session) :
  session_id r ≠ "" →
  sessions (handler w) !! session_id r = Some sess →
  os.Open (disk w) (FilePath sess) = None →
  let w' := foldl (λ w0 e0, (DownloadData e0 r w0).1) w (es ++ [e]) in
  (GetSpeed r w').2
  = http.JSON
      (encodeSpeed
         (mkSpeedResponse (session_id r)
            (speedMbps (FileSize sess)
               (time.Seconds (time.Sub (endTime e) (startTime e)))))).
Proof.
  intros Hne Hsess Hopen w'. subst w'. rewrite foldl_app. simpl.
  destruct (transfers_frame es r w sess Hsess) as ((v & Hv) & Hdisk).
  rewrite (DownloadData_present e r _ _ Hne Hv), Hdisk. simpl. rewrite Hopen.
  unfold GetSpeed. simpl. rewrite decide_False by done.
  by rewrite lookup_insert_eq.
Qed.

Lemma GetSpeed_reports_last_transfer_witness :
  let r := Sample.query "u1" in
  let w' := foldl (λ w0 e0, (DownloadData e0 r w0).1) Sample.world
                  ([Sample.instant; Sample.instant] ++ [Sample.oneSecond]) in
  (GetSpeed r w').2 = http.JSON (SpeedJSON (mkSpeedResponse "u1" 40)).
Proof.
  intros r w'.
  assert (session_id r ≠ "") as Hne by discriminate.
  exact (GetSpeed_reports_last_transfer [Sample.instant; Sample.instant]
           Sample.oneSecond r Sample.world Sample.sess Hne eq_refl eq_refl).
Defined.

(** X11. A session that has just been initiated reports speed zero: after an
    initiation answered 200, a speed lookup of the new identifier is answered
    200 with [download_speed_mbps] 0, and it leaves the world as it is, so
    that repeating the lookup gives the same answer. *)
Theorem GetSpeed_fresh_session {B} (e : InitEnv) (r : Request DownloadInitRequest)
    (q : Request B) (w : World) :
  StatusCode (InitDownload e r w).2 = http.StatusOK →
  session_id q = newUUID e →
  newUUID e ≠ "" →
  let w1 := (InitDownload e r w).1 in
  GetSpeed q w1 = (w1, http.JSON (SpeedJSON (mkSpeedResponse (newUUID e) 0)))
  ∧ GetSpeed q (GetSpeed q w1).1 = GetSpeed q w1.
Proof.
  intros Hok Hq Hne w1.
  assert (∃ sess, sessions (handler w1) !! newUUID e = Some sess
                  ∧ DownloadSpeedMbps sess = 0%float) as (sess & Hsess & Hzero).
  { subst w1. revert Hok. init_cases InitDownload_unfold e r w; try done. intros _.
    eexists. split; [apply lookup_insert_eq|done]. }
  assert (GetSpeed q w1 = (w1, http.JSON (SpeedJSON (mkSpeedResponse (newUUID e) 0))))
    as Hfirst.
  { unfold GetSpeed. rewrite Hq, decide_False, Hsess, Hzero by done. done. }
  split; [done|]. by rewrite Hfirst.
Qed.

Lemma GetSpeed_fresh_session_witness :
  let e := SampleInit.env in
  let w1 := (InitDownload e (Sample.init 5) Sample.empty).1 in
  GetSpeed (Sample.query (newUUID e)) w1
  = (w1, http.JSON (SpeedJSON (mkSpeedResponse (newUUID e) 0))).
Proof.
  intros e w1.
  assert (StatusCode (InitDownload e (Sample.init 5) Sample.empty).2 = http.StatusOK)
    as Hok.
  { destruct (InitDownload_ok e (Sample.init 5) Sample.empty (mkInitRequest 5) 5242880
                eq_refl eq_refl eq_refl (λ _ _, eq_refl)) as (chunks & -> & _).
    reflexivity. }
  assert (newUUID e ≠ "") as Hne by discriminate.
  exact (proj1 (GetSpeed_fresh_session e (Sample.init 5) (Sample.query (newUUID e))
                  Sample.empty Hok eq_refl Hne)).
Defined.

(** ** Verification, further *)

(** X12. [VerifyDownload] answers 200, 400, 404 or 500, and it changes the
    handler's maps and the disk only when it answers 200: a malformed body
    (400), an unknown session (404), a wrong digest (400) and a failed removal
    (500) all leave both exactly as they were. *)
Theorem VerifyDownload_mutates_on_success_only (r : Request DownloadVerifyRequest)
    (w : World) :
  let out := VerifyDownload r w in
  StatusCode out.2 ∈ [200; 400; 404; 500]
  ∧ (StatusCode out.2 ≠ 200 → handler out.1 = handler w ∧ disk out.1 = disk w)
  ∧ (Body r = None → out = (w, http.Error "Bad request" 400))
  ∧ (∀ req, Body r = Some req → sessions (handler w) !! SessionID req = None →
            out = (w, http.Error "Invalid session_id" 404)).
Proof.
  intros out. subst out. unfold VerifyDownload.
  destruct (Body r) as [req|]; [|split_and!; [set_solver|done..]].
  destruct (sessions (handler w) !! SessionID req) as [sess|] eqn:Hsess.
  2: { split_and!; [set_solver|done|done|]. by intros ? [= <-]. }
  simpl. case_decide.
  - destruct (os.Remove (disk w) (FilePath sess)) as [fs' [err|]]; simpl;
      (split_and!; [set_solver|done|done|]); intros ? [= <-]; congruence.
  - split_and!; [set_solver|done|done|]. intros ? [= <-]. congruence.
Qed.

(** What an answer 200 of [VerifyDownload] tells about the request. *)
Lemma VerifyDownload_success_inv (r : Request DownloadVerifyRequest) (w : World) :
  StatusCode (VerifyDownload r w).2 = http.StatusOK →
  ∃ req sess,
    Body r = Some req
    ∧ sessions (handler w) !! SessionID req = Some sess
    ∧ ComputedHash req = ExpectedHash sess
    ∧ (os.Remove (disk w) (FilePath sess)).2 = None.
Proof.
  unfold VerifyDownload.
  destruct (Body r) as [req|] eqn:Hbody; [|done].
  destruct (sessions (handler w) !! SessionID req) as [sess|] eqn:Hsess; [|done].
  simpl. case_decide; [|done].
  destruct (os.Remove (disk w) (FilePath sess)) as [fs' [err|]] eqn:Hrm; [done|].
  intros _. exists req, sess. by rewrite Hrm.
Qed.

(** X13. A session is verified at most once: when a verification is answered
    200, the same request sent again is answered 404 "Invalid session_id" and
    changes nothing, so that the artifact is removed exactly once. *)
Theorem VerifyDownload_twice (r : Request DownloadVerifyRequest) (w : World) :
  StatusCode (VerifyDownload r w).2 = http.StatusOK →
  let w1 := (VerifyDownload r w).1 in
  VerifyDownload r w1 = (w1, http.Error "Invalid session_id" 404)
  ∧ ∃ path, journal (disk w1) = (journal (disk w) ++ [EvRemove path])%list.
Proof.
  intros (req & sess & Hbody & Hsess & Hhash & Hrm)%VerifyDownload_success_inv w1.
  subst w1. rewrite (VerifyDownload_ok_world r w req sess Hbody Hsess Hhash Hrm).
  split; [|by eexists].
  unfold VerifyDownload. rewrite Hbody. simpl. by rewrite lookup_delete_eq.
Qed.

Lemma VerifyDownload_twice_witness :
  let r := Sample.verify "u1" Sample.digest in
  let w1 := (VerifyDownload r Sample.world).1 in
  VerifyDownload r w1 = (w1, http.Error "Invalid session_id" 404)
  ∧ journal (disk w1) = [EvRemove Sample.path].
Proof.
  intros r w1.
  destruct (VerifyDownload_twice r Sample.world eq_refl) as (Hagain & _).
  split; [exact Hagain|reflexivity].
Defined.

(** ** The reaper, further *)

Lemma reap_nothing_expired now order w :
  (∀ id sess, (id, sess) ∈ order → ¬ time.Sub now (CreatedAt sess) > time.Hour) →
  reap now order w = w.
Proof.
  revert w. induction order as [|[id sess] order IH]; intros w Hyoung; [done|].
  rewrite reap_cons. unfold reapOne at 1. simpl.
  rewrite decide_False by (apply (Hyoung id sess); left).
  apply IH. intros id' sess' Hin. apply (Hyoung id' sess'). by right.
Qed.

(** X14. A sweep is complete: a second sweep at the same clock reading finds
    nothing to do and changes nothing, not even the log. [cleanupTick] is
    idempotent. *)
Theorem cleanupTick_idempotent (now : Z) (w : World) :
  cleanupTick now (cleanupTick now w) = cleanupTick now w.
Proof.
  unfold cleanupTick at 1. apply reap_nothing_expired.
  intros id sess Hin%elem_of_map_to_list. unfold cleanupTick in Hin.
  eapply reap_survivor; [|exact Hin]. intros. apply elem_of_map_to_list.
Qed.

(** ** What no call does *)

(** [generateRandomFile] touches no other file. *)
Lemma generateRandomFile_other (e : InitEnv) path size fs other :
  0 < size → other ≠ path →
  files (generateRandomFile e path size fs).1 !! other = files fs !! other.
Proof.
  intros Hsize Hne.
  destruct (generateRandomFile e path size fs) as [fs2 [err|]] eqn:Hgen; simpl.
  - apply generateRandomFile_error in Hgen as [[_ ->]|(_ & _ & _ & ->)]; [done|].
    by apply lookup_insert_ne.
  - apply generateRandomFile_success in Hgen as (_ & _ & _ & ->); [|done].
    by apply lookup_insert_ne.
Qed.

(** The calls that may write the file at [path]: an initiation whose fresh
    identifier maps to that path. *)
Lemma serve_unreferenced (w : World) (c : Call) (path : string) :
  (∀ id sess, sessions (handler w) !! id = Some sess → FilePath sess ≠ path) →
  (∀ e r, c = CallInit e r → filepath.Join "tmpdata" (newUUID e ++ ".bin") ≠ path) →
  files (disk (serve w c)) !! path = files (disk w) !! path
  ∧ (∀ id sess, sessions (handler (serve w c)) !! id = Some sess → FilePath sess ≠ path).
Proof.
  intros Hfree Hfresh. destruct c as [e r|e r|r|r|now]; simpl.
  - specialize (Hfresh e r eq_refl).
    init_cases InitDownload_unfold e r w; try done.
    + match goal with H : allowedSizes !! _ = Some _ |- _ =>
        pose proof (allowedSizes_positive _ _ H) as Hpos end.
      split; [|done].
      match goal with H : generateRandomFile _ ?p ?s _ = _ |- _ =>
        pose proof (generateRandomFile_other e p s (disk w) path Hpos) as Hother;
        rewrite H in Hother end.
      apply Hother. congruence.
    + match goal with H : allowedSizes !! _ = Some _ |- _ =>
        pose proof (allowedSizes_positive _ _ H) as Hpos end.
      split; [|done].
      match goal with H : generateRandomFile _ ?p ?s _ = _ |- _ =>
        pose proof (generateRandomFile_other e p s (disk w) path Hpos) as Hother;
        rewrite H in Hother end.
      apply Hother. congruence.
    + match goal with H : allowedSizes !! _ = Some _ |- _ =>
        pose proof (allowedSizes_positive _ _ H) as Hpos end.
      split.
      * match goal with H : generateRandomFile _ ?p ?s _ = _ |- _ =>
          pose proof (generateRandomFile_other e p s (disk w) path Hpos) as Hother;
          rewrite H in Hother end.
        apply Hother. congruence.
      * intros id sess Hlook. apply lookup_insert_Some in Hlook as [[_ <-]|[_ Hlook]].
        -- done.
        -- by eapply Hfree.
  - unfold DownloadData. case_decide; [done|].
    destruct (sessions (handler w) !! session_id r) as [sess|] eqn:Hsess; [|done].
    destruct (os.Open (disk w) (FilePath sess)); [done|]. simpl. split; [done|].
    intros id sess' Hlook. apply lookup_insert_Some in Hlook as [[_ <-]|[_ Hlook]].
    + by apply (Hfree _ _ Hsess).
    + by eapply Hfree.
  - unfold VerifyDownload. destruct (Body r) as [req|]; [|done].
    destruct (sessions (handler w) !! SessionID req) as [sess|] eqn:Hsess; [|done].
    simpl. case_decide; [|done].
    pose proof (Remove_files (disk w) (FilePath sess) path) as Hfiles.
    destruct (os.Remove (disk w) (FilePath sess)) as [fs' [err|]]; simpl in *; [done|].
    split.
    + rewrite Hfiles, decide_False; [done|]. intros [Heq _].
      by apply (Hfree _ _ Hsess).
    + intros id sess' [_ Hlook]%lookup_delete_Some. by eapply Hfree.
  - unfold GetSpeed. case_decide; [done|]. by destruct (sessions (handler w) !! _).
  - unfold cleanupTick. split.
    + apply reap_files_kept. intros id sess Hin%elem_of_map_to_list _.
      by eapply Hfree.
    + intros id sess Hlook.
      apply reap_survivor in Hlook as [Hsess _]; [|intros; apply elem_of_map_to_list].
      by eapply Hfree.
Qed.

(** X15. Nothing reclaims a file that no session refers to. Such a file (left
    behind by a failed initiation, or by a sweep whose removal failed, or
    present before the server started) keeps its contents through every
    transfer, speed lookup, verification and sweep, and through every
    initiation whose fresh identifier does not map to its path. *)
Theorem run_keeps_unreferenced_file (calls : list Call) (w : World) (path : string) :
  (∀ id sess, sessions (handler w) !! id = Some sess → FilePath sess ≠ path) →
  (∀ e r, CallInit e r ∈ calls → "tmpdata/" ++ newUUID e ++ ".bin" ≠ path) →
  files (disk (run calls w)) !! path = files (disk w) !! path.
Proof.
  revert w. induction calls as [|c calls IH]; intros w Hfree Hfresh; [done|].
  change (run (c :: calls) w) with (run calls (serve w c)).
  destruct (serve_unreferenced w c path Hfree) as [Hfile Hfree'].
  { intros e r ->. apply (Hfresh e r). left. }
  rewrite IH, Hfile; [done|done|].
  intros e r Hin. apply (Hfresh e r). by right.
Qed.

Lemma run_keeps_unreferenced_file_witness :
  let calls :=
    [CallVerify (Sample.verify "u1" Sample.digest);
     CallTick (50 + time.Hour + 1);
     CallData Sample.oneSecond (Sample.query "u1");
     CallSpeed (Sample.query "u1")] in
  let w := setDisk (mkFS {[Sample.path := Sample.data; "tmpdata/old.bin" := []]}
                         Sample.noFault []) Sample.world in
  files (disk (run calls w)) !! "tmpdata/old.bin" = Some []
  ∧ files (disk (run calls w)) !! Sample.path = None.
Proof.
  intros calls w. split; [|reflexivity].
  rewrite (run_keeps_unreferenced_file calls w "tmpdata/old.bin"); [reflexivity| |].
  - intros id sess Hsess. destruct (decide (id = "u1")) as [->|Hne].
    + injection Hsess as <-. discriminate.
    + simpl in Hsess. by rewrite lookup_singleton_ne in Hsess.
  - intros e r Hin.
    repeat (apply elem_of_cons in Hin as [Heq|Hin]; [discriminate Heq|]).
    by apply elem_of_nil in Hin.
Defined.

(** ** The rate limiter's map *)

Lemma serve_lastAccessMap (w : World) (c : Call) :
  lastAccessMap (handler (serve w c))
  = match c with
    | CallInit e r =>
        if (CheckRateLimit (nowSince e) (nowStamp e) r w).2
        then <[getClientIP r := nowStamp e]> (lastAccessMap (handler w))
        else lastAccessMap (handler w)
    | _ => lastAccessMap (handler w)
    end.
Proof.
  destruct c as [e r|e r|r|r|now]; simpl.
  - init_cases InitDownload_unfold e r w; done.
  - unfold DownloadData. case_decide; [done|].
    destruct (sessions (handler w) !! session_id r) as [sess|]; [|done].
    by destruct (os.Open (disk w) (FilePath sess)).
  - unfold VerifyDownload. destruct (Body r) as [req|]; [|done].
    destruct (sessions (handler w) !! SessionID req) as [sess|]; [|done].
    simpl. case_decide; [|done].
    by destruct (os.Remove (disk w) (FilePath sess)) as [fs' [err|]].
  - unfold GetSpeed. case_decide; [done|]. by destruct (sessions (handler w) !! _).
  - apply reap_lastAccessMap.
Qed.

(** X16. The rate limiter never forgets a client. Through any sequence of
    calls an identity that has an entry in [lastAccessMap] keeps one (no
    call evicts entries, so the map only grows), and the entry of an identity
    changes only through initiations made under that identity. *)
Theorem run_keeps_rate_limit_entries (calls : list Call) (w : World) (ip : string) :
  (is_Some (lastAccessMap (handler w) !! ip) →
   is_Some (lastAccessMap (handler (run calls w)) !! ip))
  ∧ ((∀ e r, CallInit e r ∈ calls → getClientIP r ≠ ip) →
     lastAccessMap (handler (run calls w)) !! ip = lastAccessMap (handler w) !! ip).
Proof.
  revert w. induction calls as [|c calls IH]; intros w; [done|].
  change (run (c :: calls) w) with (run calls (serve w c)).
  destruct (IH (serve w c)) as [IHkeep IHsame]. split.
  - intros Hsome. apply IHkeep. rewrite serve_lastAccessMap.
    destruct c as [e r| | | |]; try done.
    destruct (CheckRateLimit _ _ _ _).2; [|done].
    rewrite lookup_insert. by case_decide.
  - intros Hother. rewrite IHsame by (intros e r Hin; apply (Hother e r); by right).
    rewrite serve_lastAccessMap. destruct c as [e r| | | |]; try done.
    destruct (CheckRateLimit _ _ _ _).2; [|done].
    apply lookup_insert_ne, (Hother e r). left.
Qed.

(** X17. Clients do not block one another: an admission decision for one
    identity leaves the entries of all other identities as they are, so the
    verdict for a client is the same before and after any call of
    [CheckRateLimit] made for a different identity. *)
Theorem CheckRateLimit_isolated {A B} (s1 t1 s2 t2 : Z) (other : Request A)
    (r : Request B) (w : World) :
  getClientIP other ≠ getClientIP r →
  let w1 := (CheckRateLimit s1 t1 other w).1 in
  lastAccessMap (handler w1) !! getClientIP r
  = lastAccessMap (handler w) !! getClientIP r
  ∧ (CheckRateLimit s2 t2 r w1).2 = (CheckRateLimit s2 t2 r w).2.
Proof.
  intros Hne w1.
  assert (lastAccessMap (handler w1) !! getClientIP r
          = lastAccessMap (handler w) !! getClientIP r) as Hsame.
  { subst w1. rewrite CheckRateLimit_result.
    destruct (CheckRateLimit s1 t1 other w).2; simpl; [|done].
    by apply lookup_insert_ne. }
  split; [done|]. by rewrite !CheckRateLimit_verdict, Hsame.
Qed.

Lemma CheckRateLimit_isolated_witness :
  let other := mkRequest (B := unit) "" "10.0.0.8:4711" "" None in
  let w1 := (CheckRateLimit 0 1 other Sample.empty).1 in
  (CheckRateLimit 2 3 (Sample.query "") w1).2 = true
  ∧ (CheckRateLimit 2 3 other w1).2 = false.
Proof.
  intros other w1. split; [|reflexivity].
  assert (getClientIP other ≠ getClientIP (Sample.query "")) as Hne by discriminate.
  subst w1. rewrite (proj2 (CheckRateLimit_isolated 0 1 2 3 other (Sample.query "") Sample.empty
                    Hne)).
  reflexivity.
Defined.

(** ** The digest *)

Lemma length_be_bytes (n : nat) (z : Z) : length (sha256.be_bytes n z) = n.
Proof. unfold sha256.be_bytes. by rewrite length_rev, length_map, length_seq. Qed.

Lemma length_sha256_Sum (data : list byte) : length (sha256.Sum data) = 32%nat.
Proof.
  unfold sha256.Sum. rewrite length_map. cbn [map concat].
  by rewrite !length_app, !length_be_bytes.
Qed.

Lemma Z_of_byte_range (b : byte) : 0 ≤ sha256.Z_of_byte b < 256.
Proof.
  unfold sha256.Z_of_byte. pose proof (Byte.to_N_bounded b). lia.
Qed.

Lemma hex_digit_lower (n : Z) :
  0 ≤ n < 16 → hex.digit n ∈ chars "0123456789abcdef".
Proof.
  intros Hn.
  assert (n ∈ seqZ 0 16) as Hin by (apply elem_of_seqZ; lia).
  vm_compute in Hin.
  clear Hn.
  repeat (apply elem_of_cons in Hin as [->|Hin];
          [apply (bool_decide_unpack _); vm_compute; exact I|]).
  by apply elem_of_nil in Hin.
Qed.

Lemma hex_EncodeToString_spec (bs : list byte) :
  String.length (hex.EncodeToString bs) = (2 * length bs)%nat
  ∧ Forall (λ c, c ∈ chars "0123456789abcdef") (chars (hex.EncodeToString bs)).
Proof.
  induction bs as [|b bs [IHlen IHall]]; [by split|].
  pose proof (Z_of_byte_range b) as Hb. simpl. split; [rewrite IHlen; lia|].
  apply Forall_cons. split.
  { apply hex_digit_lower.
    split; [apply Z.div_pos; lia|apply Z.div_lt_upper_bound; lia]. }
  apply Forall_cons. split; [|done].
  apply hex_digit_lower, Z.mod_pos_bound. lia.
Qed.

(** X18. The digest [computeFileHash] returns without an error is always 64
    characters long and made of the lower-case hexadecimal digits only; this
    is the form of every [expected_hash] the server stores and compares
    against, byte for byte. With an error it returns the empty string. *)
Theorem computeFileHash_format (fs : FS) (path : string) :
  let out := computeFileHash fs path in
  (out.2 = None →
     String.length out.1 = 64%nat
     ∧ Forall (λ c, c ∈ chars "0123456789abcdef") (chars out.1))
  ∧ (out.2 ≠ None → out.1 = "").
Proof.
  intros out. subst out. split.
  - destruct (computeFileHash fs path) as [hash [err|]] eqn:Hcompute; [done|].
    intros _. apply computeFileHash_success in Hcompute as (_ & _ & data & _ & ->).
    destruct (hex_EncodeToString_spec (sha256.Sum data)) as [Hlen Hall].
    cbn [fst]. by rewrite Hlen, length_sha256_Sum.
  - unfold computeFileHash, os.Open, os.ReadAll.
    destruct (fault fs OpOpen path); [done|].
    destruct (files fs !! path); [|done].
    by destruct (fault fs OpRead path).
Qed.

(** ** The writes of the generator *)

(** The loop of [generateRandomFile] when what remains is a whole number of
    buffers: that many writes of a full buffer each. *)
Lemma writeLoop_whole_buffers path size (k : nat) :
  ∀ g fs totalWritten old,
    size - totalWritten = Z.of_nat k * bufLen →
    fault fs OpWrite path = false →
    files fs !! path = Some old →
    writeLoop path size g fs totalWritten
    = (mkFS (<[path := (old ++ (stream g <$> seqZ (offset g) (size - totalWritten)))%list]>
               (files fs))
            (fault fs)
            (journal fs ++ replicate k (EvWrite path bufLen))%list, None).
Proof.
  assert (0 < bufLen) as Hbuf by reflexivity.
  induction k as [|k IH]; intros g fs totalWritten old Hrem Hfault Hold;
    rewrite writeLoop_equation_1.
  - destruct (decide (totalWritten < size)); [lia|]. simpl.
    rewrite seqZ_nil by lia. simpl. rewrite !(right_id_L [] (++)).
    rewrite insert_id by done. by destruct fs.
  - rewrite Nat2Z.inj_succ, Z.mul_succ_l in Hrem.
    assert (0 ≤ Z.of_nat k * bufLen) as Hk by (apply Z.mul_nonneg_nonneg; lia).
    destruct (decide (totalWritten < size)); [|lia].
    assert (toWrite size totalWritten = bufLen) as Hn.
    { unfold toWrite. cbv zeta. case_decide; [lia|done]. }
    simpl. unfold os.Write at 1. rewrite Hfault. simpl.
    set (n := toWrite size totalWritten) in *.
    rewrite (IH _ _ _ (old ++ (stream g <$> seqZ (offset g) n))%list);
      [|lia|done|simpl; rewrite Hold; apply lookup_insert_eq].
    simpl. f_equal. f_equal.
    + rewrite insert_insert_eq. f_equal. rewrite <-(assoc_L (++)). f_equal.
      rewrite <-fmap_app. f_equal.
      replace (size - totalWritten) with (n + (size - (totalWritten + n))) by lia.
      rewrite seqZ_app by lia. done.
    + rewrite <-(assoc_L (++)). f_equal. rewrite length_fmap, length_seqZ.
      rewrite Z2Nat.id, Hn by lia. reflexivity.
Qed.

(** X19. For an allowed size selector [n], the artifact is produced by one
    [os.Create] followed by exactly [n] writes of exactly 1 MiB each: the
    allowed sizes are whole multiples of the buffer, so the generator never
    makes a short write. *)
Theorem InitDownload_writes (e : InitEnv) (r : Request DownloadInitRequest)
    (w : World) (req : DownloadInitRequest) (size : Z) :
  Body r = Some req →
  allowedSizes !! SizeMB req = Some size →
  (CheckRateLimit (nowSince e) (nowStamp e) r w).2 = true →
  let path := "tmpdata/" ++ newUUID e ++ ".bin" in
  (∀ op, op ∈ [OpCreate; OpWrite; OpOpen; OpRead] → fault (disk w) op path = false) →
  journal (disk (InitDownload e r w).1)
  = (journal (disk w)
     ++ EvCreate path :: replicate (Z.to_nat (SizeMB req)) (EvWrite path (1024 * 1024)))%list.
Proof.
  intros Hbody Hsize Hadmit path Hfault.
  change path with (filepath.Join "tmpdata" (newUUID e ++ ".bin")) in *. clear path.
  set (path := filepath.Join "tmpdata" (newUUID e ++ ".bin")) in *.
  assert (fault (disk w) OpCreate path = false) as Hcreate by (apply Hfault; set_solver).
  assert (fault (disk w) OpWrite path = false) as Hwrite by (apply Hfault; set_solver).
  assert (fault (disk w) OpOpen path = false) as Hopen by (apply Hfault; set_solver).
  assert (fault (disk w) OpRead path = false) as Hread by (apply Hfault; set_solver).
  pose proof (allowedSizes_lookup _ _ Hsize) as [Hin Heq].
  assert (0 ≤ SizeMB req) as Hsel.
  { repeat (apply elem_of_cons in Hin as [->|Hin]; [lia|]). by apply elem_of_nil in Hin. }
  rewrite (InitDownload_unfold e r w), Hadmit, Hbody, Hsize. cbv zeta. fold path.
  unfold generateRandomFile, os.Create. rewrite Hcreate.
  rewrite (writeLoop_whole_buffers path size (Z.to_nat (SizeMB req)) _ _ 0 []);
    [|unfold bufLen; lia|done|apply lookup_insert_eq].
  erewrite computeFileHash_ok; [|simpl; done..|simpl; apply lookup_insert_eq].
  simpl. by rewrite <-(assoc_L (++)).
Qed.

Lemma InitDownload_writes_witness :
  let e := SampleInit.env in
  let path := "tmpdata/" ++ newUUID e ++ ".bin" in
  journal (disk (InitDownload e (Sample.init 5) Sample.empty).1)
  = [EvCreate path; EvWrite path 1048576; EvWrite path 1048576; EvWrite path 1048576;
     EvWrite path 1048576; EvWrite path 1048576].
Proof.
  intros e path.
  exact (InitDownload_writes e (Sample.init 5) Sample.empty (mkInitRequest 5) 5242880
           eq_refl eq_refl eq_refl (λ _ _, eq_refl)).
Defined.

(** ** The measured speed after any sequence of calls *)

(** No call stores a NaN, provided the sessions are backed. *)
Lemma speed_number_serve w c :
  backed w →
  (∀ id sess, sessions (handler w) !! id = Some sess →
     is_nan (DownloadSpeedMbps sess) = false) →
  ∀ id sess, sessions (handler (serve w c)) !! id = Some sess →
    is_nan (DownloadSpeedMbps sess) = false.
Proof.
  intros Hw Hnum id sess. destruct c as [e r|e r|r|r|now]; simpl.
  - init_cases InitDownload_unfold e r w; try apply Hnum.
    destruct (decide (id = newUUID e)) as [->|Hne].
    + rewrite lookup_insert_eq. by intros [= <-].
    + rewrite lookup_insert_ne by done. apply Hnum.
  - unfold DownloadData. case_decide; [apply Hnum|].
    destruct (sessions (handler w) !! session_id r) as [s0|] eqn:Hs0; [|apply Hnum].
    destruct (os.Open (disk w) (FilePath s0)); [apply Hnum|]. simpl.
    destruct (decide (id = session_id r)) as [->|Hne].
    + rewrite lookup_insert_eq. intros [= <-]. simpl.
      destruct (Hw _ _ Hs0) as (_ & _ & Hsize & _).
      apply speedMbps_number; [done|apply Seconds_number].
    + rewrite lookup_insert_ne by done. apply Hnum.
  - unfold VerifyDownload. destruct (Body r) as [req|]; [|apply Hnum].
    destruct (sessions (handler w) !! SessionID req) as [s0|]; [|apply Hnum].
    simpl. case_decide; [|apply Hnum].
    destruct (os.Remove (disk w) (FilePath s0)) as [fs' [err|]]; [apply Hnum|].
    simpl. intros [_ Hlook]%lookup_delete_Some. by eapply Hnum.
  - unfold GetSpeed. case_decide; [apply Hnum|].
    destruct (sessions (handler w) !! _); apply Hnum.
  - unfold cleanupTick. intros Hlook.
    apply reap_survivor in Hlook as [Hsess _];
      [by eapply Hnum|intros; apply elem_of_map_to_list].
Qed.

Lemma speed_number_run calls w :
  backed w →
  (∀ id sess, sessions (handler w) !! id = Some sess →
     is_nan (DownloadSpeedMbps sess) = false) →
  ∀ id sess, sessions (handler (run calls w)) !! id = Some sess →
    is_nan (DownloadSpeedMbps sess) = false.
Proof.
  revert w. induction calls as [|c calls IH]; intros w Hw Hnum; [done|].
  apply IH; [by apply backed_serve|by apply speed_number_serve].
Qed.

(** X20. After any sequence of calls, starting from a freshly created handler
    on any disk, the measured speed of every session in the store is a
    number: whatever the clock readings of the transfers were, no NaN is ever
    stored (an infinity can be, when a transfer takes no time). *)
Theorem run_speed_is_a_number (fs : FS) (calls : list Call) (id : string)
    (sess : Session) :
  let w := run calls (boot fs) in
  sessions (handler w) !! id = Some sess →
  is_nan (DownloadSpeedMbps sess) = false.
Proof.
  intros w. apply speed_number_run; [apply backed_boot|].
  intros id' sess'. unfold boot, NewDownloadHandler. simpl.
  by rewrite lookup_empty.
Qed.

Lemma run_speed_is_a_number_witness :
  let e := SampleInit.env in
  let fs := mkFS ∅ Sample.noFault [] in
  let calls := [CallInit e (Sample.init 5);
                CallData Sample.instant (Sample.query (newUUID e))] in
  ∃ sess,
    sessions (handler (run calls (boot fs))) !! newUUID e = Some sess
    ∧ is_nan (DownloadSpeedMbps sess) = false.
Proof.
  intros e fs calls.
  destruct (DownloadData_frame Sample.instant (Sample.query (newUUID e))
              (run [CallInit e (Sample.init 5)] (boot fs)) _ sample_first_session)
    as ((v & Hv) & _).
  eexists. split; [exact Hv|].
  exact (run_speed_is_a_number fs calls (newUUID e) _ Hv).
Defined.
